(** * Verification of [transformers/tf_utils.py]

    A shallow embedding of the five TensorFlow helper functions of
    [src/transformers/tf_utils.py] ([shape_list], [stable_softmax],
    [functional_layernorm], [flatten], [invert_attention_mask]) and the
    theorems that relate them to the natural-language specification.

    Modelling choices, all stated once here:
    - a tensor is a shape (list of axis sizes) together with its elements in
      row-major order; [tf.reshape] and indexing with [None] keep the elements
      and change the shape only; the shape [tf.shape] returns is a vector of
      32-bit integers, and arithmetic on it wraps around;
    - Python exceptions are values of [PyError]; a function that may raise
      returns a [Result];
    - the TensorFlow primitives the file calls ([tf.reshape], [tf.nn.moments],
      [tf.nn.batch_normalization], [tf.nn.softmax], broadcasting arithmetic)
      are not part of the repository; they are modelled after their documented
      behaviour, with floating-point numbers idealised as real numbers. *)

From Stdlib Require Import List ZArith Lia Bool Arith PeanoNat.
From Stdlib Require Import Reals Lra Psatz.
Import ListNotations.

Set Implicit Arguments.

(* ================================================================= *)
(** ** Python exceptions and results *)

Inductive PyError : Type :=
| NotImplementedError
| UnboundLocalError
| IndexError
| TypeError
| InvalidArgumentError.

Inductive Result (A : Type) : Type :=
| Ok (a : A)
| Raise (e : PyError).

Arguments Ok {A} a.
Arguments Raise {A} e.

Definition bind {A B : Type} (r : Result A) (k : A -> Result B) : Result B :=
  match r with
  | Ok a => k a
  | Raise e => Raise e
  end.

Notation "x <- r ;; k" := (bind r (fun x => k))
  (at level 61, r at next level, right associativity).
Notation "' p <- r ;; k" := (bind r (fun p => k))
  (at level 61, p pattern, r at next level, right associativity).

(* ================================================================= *)
(** ** Python list operations with integer indices *)

Module Py.

(** A slice bound [i] of a sequence of length [len]: a negative bound counts
    from the end, and the result is clamped to [0 .. len]. *)
Definition clamp (len i : Z) : Z :=
  let i' := if (i <? 0)%Z then (i + len)%Z else i in
  Z.max 0 (Z.min len i').

(** [l[lo:hi]], either bound possibly omitted. *)
Definition slice {A : Type} (l : list A) (lo hi : option Z) : list A :=
  let len := Z.of_nat (length l) in
  let b := match lo with None => 0%Z | Some i => clamp len i end in
  let e := match hi with None => len | Some i => clamp len i end in
  firstn (Z.to_nat (e - b)) (skipn (Z.to_nat b) l).

(** The position [l[i]] refers to, or [IndexError]. *)
Definition index (len : nat) (i : Z) : Result nat :=
  let n := Z.of_nat len in
  if ((0 <=? i) && (i <? n))%Z then Ok (Z.to_nat i)
  else if ((- n <=? i) && (i <? 0))%Z then Ok (Z.to_nat (i + n))
  else Raise IndexError.

(** [l[i]]. *)
Definition getitem {A : Type} (l : list A) (i : Z) : Result A :=
  k <- index (length l) i ;;
  match nth_error l k with
  | Some a => Ok a
  | None => Raise IndexError
  end.

Fixpoint update {A : Type} (l : list A) (k : nat) (a : A) : list A :=
  match l, k with
  | [], _ => []
  | _ :: l', O => a :: l'
  | x :: l', S k' => x :: update l' k' a
  end.

(** [l[i] = a], returning the updated list. *)
Definition setitem {A : Type} (l : list A) (i : Z) (a : A) : Result (list A) :=
  k <- index (length l) i ;;
  Ok (update l k a).

End Py.

(* ================================================================= *)
(** ** 32-bit integers *)

(** [tf.int32]: integers with two's complement wrap-around. *)
Module Int32.
Definition wrap (z : Z) : Z := ((z + 2 ^ 31) mod 2 ^ 32 - 2 ^ 31)%Z.
Definition min : Z := (- 2 ^ 31)%Z.
Definition max : Z := (2 ^ 31 - 1)%Z.
End Int32.

(* ================================================================= *)
(** ** Tensors *)

Record Tensor (A : Type) : Type := mkTensor {
  shape : list nat;
  data : list A
}.

Arguments mkTensor {A} shape data.

(** Number of elements a shape announces. *)
Definition nelems (s : list nat) : nat := fold_right Nat.mul 1 s.

(** [tensor.shape.rank] of a tensor whose shape is fully defined. *)
Definition rank {A : Type} (t : Tensor A) : nat := length (shape t).

(** A tensor holds exactly as many elements as its shape announces. *)
Definition wf {A : Type} (t : Tensor A) : Prop :=
  length (data t) = nelems (shape t).

(** Row-major offset of a multi-index. *)
Fixpoint ravel (s idx : list nat) : nat :=
  match s, idx with
  | _ :: s', i :: idx' => i * nelems s' + ravel s' idx'
  | _, _ => 0
  end.

(** Multi-index of a row-major offset. *)
Fixpoint unravel (s : list nat) (p : nat) : list nat :=
  match s with
  | [] => []
  | _ :: s' => (p / nelems s') :: unravel s' (p mod nelems s')
  end.

(** [idx] addresses an element of a tensor of shape [s]. *)
Fixpoint valid (s idx : list nat) : Prop :=
  match s, idx with
  | [], [] => True
  | n :: s', i :: idx' => i < n /\ valid s' idx'
  | _, _ => False
  end.

Definition get {A : Type} (d : A) (t : Tensor A) (idx : list nat) : A :=
  nth (ravel (shape t) idx) (data t) d.

(** The tensor of shape [s] whose element at [idx] is [f idx]. *)
Definition tabulate {A : Type} (s : list nat) (f : list nat -> A) : Tensor A :=
  mkTensor s (map (fun p => f (unravel s p)) (seq 0 (nelems s))).

(** Elementwise application of [f]. *)
Definition tmap {A B : Type} (f : A -> B) (t : Tensor A) : Tensor B :=
  mkTensor (shape t) (map f (data t)).

(** [tf.reshape(t, s)]: the same elements under a new shape; TensorFlow
    rejects a shape that announces another number of elements. *)
Definition tf_reshape {A : Type} (t : Tensor A) (s : list nat) : Result (Tensor A) :=
  if nelems s =? length (data t) then Ok (mkTensor s (data t))
  else Raise InvalidArgumentError.

(** [tf.shape(t)]: the axis sizes as a vector of [tf.int32] (every axis size
    is taken to fit 32 bits, as [tf.shape] requires). *)
Definition tf_shape {A : Type} (t : Tensor A) : list Z := map Z.of_nat (shape t).

(** [tf.math.reduce_prod] of a vector of [tf.int32]: the product, computed in
    32 bits, wraps around. *)
Definition reduce_prod (v : list Z) : Z := Int32.wrap (fold_right Z.mul 1%Z v).

(** [tf.reshape(t, s)] for a shape given as a vector of [tf.int32], as
    [flatten] builds it.  A size below -1 is rejected; one size -1 is
    inferred from the number of elements, which the other sizes must divide
    (and they must not multiply to 0); two or more are rejected; without a -1
    the sizes must announce exactly the number of elements. *)
Definition tf_reshape_int32 {A : Type} (t : Tensor A) (s : list Z) : Result (Tensor A) :=
  let n := length (data t) in
  if existsb (fun d => (d <? -1)%Z) s then Raise InvalidArgumentError
  else
    match length (filter (fun d => (d =? -1)%Z) s) with
    | 0 =>
        if nelems (map Z.to_nat s) =? n then Ok (mkTensor (map Z.to_nat s) (data t))
        else Raise InvalidArgumentError
    | 1 =>
        let known := nelems (map Z.to_nat (filter (fun d => negb (d =? -1)%Z) s)) in
        if (known =? 0) || negb (n mod known =? 0) then Raise InvalidArgumentError
        else Ok (mkTensor (map (fun d => if (d =? -1)%Z then n / known else Z.to_nat d) s)
                   (data t))
    | _ => Raise InvalidArgumentError
    end.

(* ================================================================= *)
(** ** [shape_list] *)

(** What [shape_list] can be given: a NumPy array, whose shape is a tuple of
    integers, or a TensorFlow tensor, whose static shape is either unknown
    altogether ([TensorShape(None)]) or a list of sizes some of which may be
    unknown ([None]). *)
Inductive TensorLike : Type :=
| NdArray (np_shape : list nat)
| TfTensor (static_shape : option (list (option nat))).

(** [tf.shape(tensor)], the handle on the shape at execution time. *)
Inductive DynamicShape : Type :=
| TfShape (t : TensorLike).

(** An entry of the list [shape_list] returns: an integer, or [dynamic[i]]. *)
Inductive ShapeEntry : Type :=
| StaticDim (n : nat)
| DynamicDim (dynamic : DynamicShape) (i : nat).

Inductive ShapeList : Type :=
| Entries (l : list ShapeEntry)
| Dynamic (dynamic : DynamicShape).

(** [[f i s for i, s in enumerate(l)]], counting from [i]. *)
Fixpoint enumerate_from {A B : Type} (f : nat -> A -> B) (i : nat) (l : list A) : list B :=
  match l with
  | [] => []
  | s :: l' => f i s :: enumerate_from f (S i) l'
  end.

Definition shape_list (tensor : TensorLike) : ShapeList :=
  match tensor with
  | NdArray np_shape => Entries (map StaticDim np_shape)
  | TfTensor static_shape =>
      let dynamic := TfShape tensor in
      match static_shape with
      | None => Dynamic dynamic
      | Some static =>
          Entries (enumerate_from
                     (fun i s => match s with
                                 | None => DynamicDim dynamic i
                                 | Some n => StaticDim n
                                 end) 0 static)
      end
  end.

(** The view of a tensor whose shape is fully defined, as in eager mode. *)
Definition as_tf {A : Type} (t : Tensor A) : TensorLike :=
  TfTensor (Some (map Some (shape t))).

(** The size an entry stands for when the shape at execution time is [s]. *)
Definition eval_entry (s : list nat) (e : ShapeEntry) : nat :=
  match e with
  | StaticDim n => n
  | DynamicDim _ i => nth i s 0
  end.

(* ================================================================= *)
(** ** [flatten] *)

Definition flatten {A : Type} (input : Tensor A) (start_dim end_dim : Z) : Result (Tensor A) :=
  let end_dim := if (end_dim <? 0)%Z then (end_dim + Z.of_nat (rank input))%Z else end_dim in
  let start_dim := if (start_dim <? 0)%Z then (start_dim + Z.of_nat (rank input))%Z else start_dim in
  if (start_dim =? end_dim)%Z then Ok input
  else
    let in_shape := tf_shape input in
    let flattened_dim := reduce_prod (Py.slice in_shape (Some start_dim) (Some (end_dim + 1)%Z)) in
    let out_shape :=
      Py.slice in_shape None (Some start_dim) ++ [flattened_dim]
        ++ Py.slice in_shape (Some (end_dim + 1)%Z) None in
    tf_reshape_int32 input out_shape.

(** The index an argument of [flatten] resolves to. *)
Definition resolve_dim (r : nat) (d : Z) : Z :=
  if (d <? 0)%Z then (d + Z.of_nat r)%Z else d.

(** The shape the specification announces, in its own words: the axes before
    [start_dim], one axis for the product of the axes [start_dim .. end_dim],
    the axes after [end_dim].  [select p i s] keeps the axes of [s], numbered
    from [i], whose number satisfies [p]. *)
Fixpoint select (p : Z -> bool) (i : Z) (s : list nat) : list nat :=
  match s with
  | [] => []
  | d :: s' => if p i then d :: select p (i + 1)%Z s' else select p (i + 1)%Z s'
  end.


(* ================================================================= *)
(** ** [invert_attention_mask] *)

(** The arithmetic of a numeric dtype, as far as [invert_attention_mask] uses
    it: [tf.cast(0, dtype)], [tf.cast(1, dtype)], [dtype.min], [-] and [*]. *)
Class DType (A : Type) : Type := {
  zero : A;
  one : A;
  dtype_min : A;
  sub : A -> A -> A;
  mul : A -> A -> A
}.

(** The four facts about 0, 1 and [dtype.min] that every numeric dtype obeys. *)
Class DTypeLaws (A : Type) `{DType A} : Prop := {
  sub_one_one : sub one one = zero;
  sub_one_zero : sub one zero = one;
  mul_zero_min : mul zero dtype_min = zero;
  mul_one_min : mul one dtype_min = dtype_min
}.

#[export] Instance int32_dtype : DType Z := {
  zero := 0%Z;
  one := 1%Z;
  dtype_min := Int32.min;
  sub := fun a b => Int32.wrap (a - b);
  mul := fun a b => Int32.wrap (a * b)
}.

(** [tf.float32], idealised: real arithmetic, and the most negative finite
    single-precision value [-(2 - 2^-23) * 2^127].  (In IEEE arithmetic
    [0 * dtype.min] is the negative zero, which compares equal to 0.) *)
Definition float32_min : R := (- ((2 - / 2 ^ 23) * 2 ^ 127))%R.

#[export] Instance float32_dtype : DType R := {
  zero := 0%R;
  one := 1%R;
  dtype_min := float32_min;
  sub := Rminus;
  mul := Rmult
}.

(** An argument that is either already a [tf.Tensor] or a stray NumPy array. *)
Inductive ArrayLike (A : Type) : Type :=
| TfValue (t : Tensor A)
| NumpyValue (t : Tensor A).

Arguments TfValue {A} t.
Arguments NumpyValue {A} t.

Definition tf_convert_to_tensor {A : Type} (x : ArrayLike A) : Tensor A :=
  match x with
  | TfValue t => t
  | NumpyValue t => t
  end.

(** The items of a subscript [t[...]]: [:] or [None]. *)
Inductive IndexItem : Type :=
| Colon
| NewAxis.

Fixpoint index_shape (items : list IndexItem) (s : list nat) : Result (list nat) :=
  match items with
  | [] => Ok s
  | Colon :: items' =>
      match s with
      | [] => Raise IndexError
      | d :: s' => s'' <- index_shape items' s' ;; Ok (d :: s'')
      end
  | NewAxis :: items' => s'' <- index_shape items' s ;; Ok (1 :: s'')
  end.

(** [t[items]] for a subscript of [:] and [None] only: the elements are kept,
    a [None] inserts an axis of size 1. *)
Definition tf_getitem {A : Type} (t : Tensor A) (items : list IndexItem) : Result (Tensor A) :=
  s <- index_shape items (shape t) ;;
  Ok (mkTensor s (data t)).

(** Reading a local variable that may not have been assigned. *)
Definition read_local {A : Type} (v : option A) : Result A :=
  match v with
  | Some a => Ok a
  | None => Raise UnboundLocalError
  end.

Definition invert_attention_mask {A : Type} `{DType A}
    (encoder_attention_mask : ArrayLike A) : Result (Tensor A) :=
  let encoder_attention_mask :=
    match encoder_attention_mask with
    | TfValue t => t
    | NumpyValue _ => tf_convert_to_tensor encoder_attention_mask
    end in
  let encoder_extended_attention_mask : option (Tensor A) := None in
  encoder_extended_attention_mask <-
    (if rank encoder_attention_mask =? 3
     then t <- tf_getitem encoder_attention_mask [Colon; NewAxis; Colon; Colon] ;; Ok (Some t)
     else Ok encoder_extended_attention_mask) ;;
  encoder_extended_attention_mask <-
    (if rank encoder_attention_mask =? 2
     then t <- tf_getitem encoder_attention_mask [Colon; NewAxis; NewAxis; Colon] ;; Ok (Some t)
     else Ok encoder_extended_attention_mask) ;;
  extended <- read_local encoder_extended_attention_mask ;;
  Ok (tmap (fun m => mul (sub one m) dtype_min) extended).

(* ================================================================= *)
(** ** TensorFlow numeric primitives, over the reals *)

Open Scope R_scope.

(** The sum of [f 0 .. f (n - 1)]. *)
Definition sum_upto (n : nat) (f : nat -> R) : R :=
  fold_right Rplus 0 (map f (seq 0 n)).

(** The axis a TensorFlow operation works on, for a tensor of rank [r]:
    [axis] must lie in [-r .. r - 1], a negative one counts from the end. *)
Definition tf_axis (r : nat) (axis : Z) : Result nat :=
  let n := Z.of_nat r in
  if ((0 <=? axis) && (axis <? n))%Z then Ok (Z.to_nat axis)
  else if ((- n <=? axis) && (axis <? 0))%Z then Ok (Z.to_nat (axis + n))
  else Raise InvalidArgumentError.

(** The elements of [x] met when only coordinate [k] of [idx] varies. *)
Definition along (x : Tensor R) (k : nat) (idx : list nat) (j : nat) : R :=
  get 0 x (Py.update idx k j).

(** [tf.nn.softmax(logits, axis)].  (In floating point an exponential far
    below the largest one rounds to 0; bounds on the result are therefore
    stated non-strictly.) *)
Definition tf_nn_softmax (logits : Tensor R) (axis : option Z) : Result (Tensor R) :=
  let axis := match axis with None => (-1)%Z | Some a => a end in
  k <- tf_axis (rank logits) axis ;;
  let n := nth k (shape logits) 0%nat in
  Ok (tabulate (shape logits)
        (fun idx => exp (get 0 logits idx)
                    / sum_upto n (fun j => exp (along logits k idx j)))).

(** Broadcasting: the shorter shape is padded with 1 on the left, and two
    sizes are compatible when they are equal or one of them is 1. *)
Definition pad_shape (n : nat) (s : list nat) : list nat :=
  repeat 1%nat (n - length s) ++ s.

Fixpoint zip_dims (a b : list nat) : option (list nat) :=
  match a, b with
  | [], [] => Some []
  | x :: a', y :: b' =>
      match zip_dims a' b' with
      | None => None
      | Some s =>
          if (x =? y)%nat then Some (x :: s)
          else if (x =? 1)%nat then Some (y :: s)
          else if (y =? 1)%nat then Some (x :: s)
          else None
      end
  | _, _ => None
  end.

Definition broadcast_shape (a b : list nat) : option (list nat) :=
  let n := Nat.max (length a) (length b) in
  zip_dims (pad_shape n a) (pad_shape n b).

Fixpoint zero_ones (s idx : list nat) : list nat :=
  match s, idx with
  | d :: s', i :: idx' => (if (d =? 1)%nat then 0%nat else i) :: zero_ones s' idx'
  | _, _ => []
  end.

(** The index of the operand of shape [s] that feeds the element [idx] of a
    broadcast result. *)
Definition bidx (s idx : list nat) : list nat :=
  zero_ones s (skipn (length idx - length s) idx).

(** The element of the operand [t] that feeds the element [idx] of a
    broadcast result. *)
Definition bget (t : Tensor R) (idx : list nat) : R :=
  get 0 t (bidx (shape t) idx).

(** An elementwise binary operation with broadcasting. *)
Definition broadcast_op (f : R -> R -> R) (a b : Tensor R) : Result (Tensor R) :=
  match broadcast_shape (shape a) (shape b) with
  | None => Raise InvalidArgumentError
  | Some s => Ok (tabulate s (fun idx => f (bget a idx) (bget b idx)))
  end.

(** The mean of the elements of [x] met when coordinate [k] of [idx] varies. *)
Definition mean_along (x : Tensor R) (k : nat) (idx : list nat) : R :=
  let n := nth k (shape x) 0%nat in
  sum_upto n (fun j => along x k idx j) / INR n.

(** Their variance: the mean of the squared differences to the mean. *)
Definition var_along (x : Tensor R) (k : nat) (idx : list nat) : R :=
  let n := nth k (shape x) 0%nat in
  sum_upto n (fun j => (along x k idx j - mean_along x k idx)
                       * (along x k idx j - mean_along x k idx)) / INR n.

(** [tf.reduce_mean(x, [k], keepdims=True)].  (Along an axis of size 0 the
    quotient is 0/0; no result below depends on its value.) *)
Definition tf_reduce_mean (x : Tensor R) (k : nat) : Tensor R :=
  tabulate (Py.update (shape x) k 1%nat) (mean_along x k).

(** [tf.nn.moments(x, axes=[axis], keepdims=True)]: the mean, and the mean of
    the squared differences to it. *)
Definition tf_nn_moments (x : Tensor R) (axis : Z) : Result (Tensor R * Tensor R) :=
  k <- tf_axis (rank x) axis ;;
  let mean := tf_reduce_mean x k in
  sq <- broadcast_op (fun a m => (a - m) * (a - m)) x mean ;;
  let variance := tf_reduce_mean sq k in
  Ok (mean, variance).

(** [tf.nn.batch_normalization(x, mean, variance, offset, scale, variance_epsilon)]:
    [inv = rsqrt(variance + variance_epsilon) * scale] and the result is
    [x * inv + (offset - mean * inv)].  Where [variance + variance_epsilon]
    is not positive TensorFlow's [rsqrt] gives an infinity or a NaN, which the
    reals do not have: every statement below about the values of a result
    assumes [variance + variance_epsilon] positive at the index it speaks
    of. *)
Definition tf_nn_batch_normalization
    (x mean variance offset scale : Tensor R) (variance_epsilon : R) : Result (Tensor R) :=
  let inv := tmap (fun v => / sqrt (v + variance_epsilon)) variance in
  inv <- broadcast_op Rmult inv scale ;;
  x_inv <- broadcast_op Rmult x inv ;;
  mean_inv <- broadcast_op Rmult mean inv ;;
  shift <- broadcast_op Rminus offset mean_inv ;;
  broadcast_op Rplus x_inv shift.

(* ================================================================= *)
(** ** [stable_softmax] *)

(** The argument [name] only labels the operation and is left out. *)
Definition stable_softmax (logits : Tensor R) (axis : option Z) : Result (Tensor R) :=
  tf_nn_softmax (tmap (fun x => x + 1 / 10 ^ 9) logits) axis.

(* ================================================================= *)
(** ** [functional_layernorm] *)

(** What a caller may pass as [axis]: a Python [int], an integer of another
    type (a NumPy integer such as [np.int64(-1)]), or a tuple or list of
    axes. *)
Inductive AxisArg : Type :=
| AxisInt (a : Z)
| AxisNumpyInt (a : Z)
| AxisSeq (l : list Z).

(** [isinstance(axis, int)]: a NumPy integer is not an instance of [int]. *)
Definition isinstance_int (axis : AxisArg) : bool :=
  match axis with
  | AxisInt _ => true
  | AxisNumpyInt _ => false
  | AxisSeq _ => false
  end.


Definition default_epsilon : R := 1 / 10 ^ 5.

(** The statements under [if axis != -1:], giving the [weight] and [bias]
    that reach [tf.nn.batch_normalization]. *)
Definition layernorm_affine (inputs weight bias : Tensor R) (axis : Z)
  : Result (Tensor R * Tensor R) :=
  if negb (axis =? -1)%Z then
    let shape0 := repeat (StaticDim 1) (rank inputs) in
    match shape_list (as_tf inputs) with
    | Dynamic _ => Raise TypeError
    | Entries dims =>
        d <- Py.getitem dims axis ;;
        shape1 <- Py.setitem shape0 axis d ;;
        let shape1 := map (eval_entry (shape inputs)) shape1 in
        weight <- tf_reshape weight shape1 ;;
        bias <- tf_reshape bias shape1 ;;
        Ok (weight, bias)
    end
  else Ok (weight, bias).



Definition functional_layernorm
    (inputs weight bias : Tensor R) (epsilon : R) (axis : AxisArg) : Result (Tensor R) :=
  if negb (rank weight =? 1)%nat || negb (rank bias =? 1)%nat || negb (isinstance_int axis)
  then Raise NotImplementedError
  else
    match axis with
    | AxisNumpyInt _ | AxisSeq _ =>
        Raise TypeError (* not reached: the test above rejects them *)
    | AxisInt axis =>
        '(mean, variance) <- tf_nn_moments inputs axis ;;
        '(weight, bias) <- layernorm_affine inputs weight bias axis ;;
        tf_nn_batch_normalization inputs mean variance bias weight epsilon
    end.

Close Scope R_scope.

(* ================================================================= *)
(** * Properties *)

(* ----------------------------------------------------------------- *)
(** ** [shape_list] *)


Lemma enumerate_from_known (B : Type) (f : nat -> option nat -> B) (g : nat -> B) (s : list nat) :
  (forall i n, f i (Some n) = g n) ->
  forall k, enumerate_from f k (map Some s) = map g s.
Proof.
  intros Hf. induction s as [|n s IH]; intros k; simpl.
  - reflexivity.
  - now rewrite Hf, IH.
Qed.


(* ----------------------------------------------------------------- *)
(** ** [flatten]: the fast path *)

(** C8. When [start_dim] and [end_dim] resolve to the same index, [flatten]
    returns its input itself. *)
Theorem flatten_same_dim_identity (A : Type) (x : Tensor A) (start_dim end_dim : Z) :
  resolve_dim (rank x) start_dim = resolve_dim (rank x) end_dim ->
  flatten x start_dim end_dim = Ok x.
Proof.
  unfold resolve_dim, flatten. intros ->.
  now rewrite Z.eqb_refl.
Qed.

Lemma flatten_same_dim_identity_witness :
  let x := mkTensor [2; 3]%nat [1; 2; 3; 4; 5; 6]%Z in
  resolve_dim (rank x) (-1) = resolve_dim (rank x) 1
  /\ flatten x (-1) 1 = Ok x.
Proof.
  intros x. split; [reflexivity|].
  apply (@flatten_same_dim_identity Z x (-1) 1). reflexivity.
Defined.

Example slice_negative_start :
  Py.slice [2; 3; 4; 5] (Some (-1)%Z) (Some 3%Z) = []
  /\ Py.slice [2; 3; 4; 5] None (Some (-1)%Z) = [2; 3; 4]
  /\ Py.slice [2; 3; 4; 5] (Some 1%Z) (Some 3%Z) = [3; 4].
Proof. repeat split. Qed.

Example flatten_defaults :
  flatten (mkTensor [2; 3] [1; 2; 3; 4; 5; 6]%Z) 0 (-1)
  = Ok (mkTensor [6] [1; 2; 3; 4; 5; 6]%Z).
Proof. reflexivity. Qed.

Example flatten_start_after_end :
  flatten (mkTensor [2; 3] [1; 2; 3; 4; 5; 6]%Z) 1 0
  = Ok (mkTensor [2; 1; 3] [1; 2; 3; 4; 5; 6]%Z).
Proof. reflexivity. Qed.

(* ----------------------------------------------------------------- *)
(** ** [invert_attention_mask]: ranks other than 2 and 3 *)

(** C6. For an argument whose rank is neither 2 nor 3 no branch assigns the
    extended mask, and the function stops with the unbound-variable error of
    the first read of it; it raises no validation error of its own. *)
Theorem invert_attention_mask_unbound (A : Type) `{DType A} (x : ArrayLike A) :
  rank (tf_convert_to_tensor x) <> 2 ->
  rank (tf_convert_to_tensor x) <> 3 ->
  invert_attention_mask x = Raise UnboundLocalError.
Proof.
  intros H2 H3. unfold invert_attention_mask.
  replace (match x with TfValue t => t | NumpyValue _ => tf_convert_to_tensor x end)
    with (tf_convert_to_tensor x) by (destruct x; reflexivity).
  apply Nat.eqb_neq in H2, H3. now rewrite H2, H3.
Qed.

Lemma invert_attention_mask_unbound_witness :
  invert_attention_mask (TfValue (mkTensor [3]%nat [1; 0; 1]%Z)) = Raise UnboundLocalError
  /\ invert_attention_mask (NumpyValue (mkTensor [1; 1; 1; 2]%nat [1; 0]%Z))
     = Raise UnboundLocalError.
Proof.
  split; apply invert_attention_mask_unbound; unfold rank; simpl; lia.
Defined.

(* ----------------------------------------------------------------- *)
(** ** Indexing lemmas *)

Lemma nelems_app (a b : list nat) : nelems (a ++ b) = nelems a * nelems b.
Proof.
  induction a as [|x a IH]; simpl.
  - lia.
  - rewrite IH. lia.
Qed.

Lemma ravel_lt (s : list nat) :
  forall idx, valid s idx -> ravel s idx < nelems s.
Proof.
  induction s as [|n s IH]; intros [|i idx] Hv; simpl in *; try tauto; try lia.
  destruct Hv as [Hi Hv]. specialize (IH idx Hv). nia.
Qed.

Lemma get_tmap (A B : Type) (f : A -> B) (d : A) (d' : B) (t : Tensor A) (idx : list nat) :
  wf t -> valid (shape t) idx ->
  get d' (tmap f t) idx = f (get d t idx).
Proof.
  intros Hwf Hv. unfold get, tmap. simpl.
  rewrite (nth_indep _ d' (f d)).
  - apply map_nth.
  - rewrite length_map, Hwf. now apply ravel_lt.
Qed.

(* ----------------------------------------------------------------- *)
(** ** [invert_attention_mask]: ranks 2 and 3 *)

#[export] Instance int32_laws : @DTypeLaws Z int32_dtype.
Proof. split; reflexivity. Qed.

#[export] Instance float32_laws : @DTypeLaws R float32_dtype.
Proof. split; simpl; ring. Qed.

(** C1. A mask of shape [(batch, sequence)] comes back with shape
    [(batch, 1, 1, sequence)] and a mask of shape
    [(batch, sequence_q, sequence_k)] with shape
    [(batch, 1, sequence_q, sequence_k)]; the element at each position is
    [(1 - mask) * dtype.min], hence 0 where the mask is 1 and [dtype.min]
    where the mask is 0. *)
Theorem invert_attention_mask_correct (A : Type) (D : DType A) (L : @DTypeLaws A D)
    (x : ArrayLike A) :
  wf (tf_convert_to_tensor x) ->
  let mask := tf_convert_to_tensor x in
  (forall b s, shape mask = [b; s] ->
     exists out, invert_attention_mask x = Ok out
       /\ shape out = [b; 1; 1; s]
       /\ forall i j, i < b -> j < s ->
            get zero out [i; 0; 0; j] = mul (sub one (get zero mask [i; j])) dtype_min
            /\ (get zero mask [i; j] = one -> get zero out [i; 0; 0; j] = zero)
            /\ (get zero mask [i; j] = zero -> get zero out [i; 0; 0; j] = dtype_min))
  /\
  (forall b q k, shape mask = [b; q; k] ->
     exists out, invert_attention_mask x = Ok out
       /\ shape out = [b; 1; q; k]
       /\ forall i j l, i < b -> j < q -> l < k ->
            get zero out [i; 0; j; l] = mul (sub one (get zero mask [i; j; l])) dtype_min
            /\ (get zero mask [i; j; l] = one -> get zero out [i; 0; j; l] = zero)
            /\ (get zero mask [i; j; l] = zero -> get zero out [i; 0; j; l] = dtype_min)).
Proof.
  intros Hwf mask.
  assert (Hm : match x with TfValue t => t | NumpyValue _ => tf_convert_to_tensor x end = mask)
    by (destruct x; reflexivity).
  unfold wf in Hwf. fold mask in Hwf.
  split.
  - intros b s Hs. unfold invert_attention_mask. rewrite Hm.
    unfold rank, tf_getitem. rewrite Hs. simpl.
    eexists. split; [reflexivity|]. split; [reflexivity|].
    intros i j Hi Hj.
    assert (Hget : get zero (tmap (fun m => mul (sub one m) dtype_min)
                               (mkTensor [b; 1; 1; s] (data mask))) [i; 0; 0; j]
                   = mul (sub one (get zero mask [i; j])) dtype_min).
    { rewrite (@get_tmap _ _ _ zero).
      - unfold get. rewrite Hs. simpl. do 3 f_equal. lia.
      - unfold wf. simpl. rewrite Hwf, Hs. simpl. lia.
      - simpl. lia. }
    rewrite Hget. split; [reflexivity|].
    split; intros ->.
    + now rewrite sub_one_one, mul_zero_min.
    + now rewrite sub_one_zero, mul_one_min.
  - intros b q k Hs. unfold invert_attention_mask. rewrite Hm.
    unfold rank, tf_getitem. rewrite Hs. simpl.
    eexists. split; [reflexivity|]. split; [reflexivity|].
    intros i j l Hi Hj Hl.
    assert (Hget : get zero (tmap (fun m => mul (sub one m) dtype_min)
                               (mkTensor [b; 1; q; k] (data mask))) [i; 0; j; l]
                   = mul (sub one (get zero mask [i; j; l])) dtype_min).
    { rewrite (@get_tmap _ _ _ zero).
      - unfold get. rewrite Hs. simpl. do 3 f_equal. lia.
      - unfold wf. simpl. rewrite Hwf, Hs. simpl. lia.
      - simpl. lia. }
    rewrite Hget. split; [reflexivity|].
    split; intros ->.
    + now rewrite sub_one_one, mul_zero_min.
    + now rewrite sub_one_zero, mul_one_min.
Qed.

Example invert_attention_mask_int32 :
  invert_attention_mask (TfValue (mkTensor [1; 5] [1; 1; 0; 1; 1]%Z))
  = Ok (mkTensor [1; 1; 1; 5] [0; 0; Int32.min; 0; 0]%Z).
Proof. reflexivity. Qed.

Lemma invert_attention_mask_correct_witness :
  let x := TfValue (mkTensor [1; 5] [1; 1; 0; 1; 1]%Z) in
  wf (tf_convert_to_tensor x)
  /\ exists out, invert_attention_mask x = Ok out
       /\ shape out = [1; 1; 1; 5]
       /\ get 0%Z out [0; 0; 0; 2] = Int32.min
       /\ get 0%Z out [0; 0; 0; 3] = 0%Z.
Proof.
  intros x.
  assert (Hwf : wf (tf_convert_to_tensor x)) by reflexivity.
  split; [exact Hwf|].
  destruct (invert_attention_mask_correct int32_laws x Hwf) as [H2 _].
  destruct (H2 1 5 eq_refl) as (out & Hout & Hshape & Hval).
  exists out. split; [exact Hout|]. split; [exact Hshape|]. split.
  - destruct (Hval 0 2) as (_ & _ & Hmin); [lia | lia |]. now apply Hmin.
  - destruct (Hval 0 3) as (_ & Hzero & _); [lia | lia |]. now apply Hzero.
Defined.

(* ----------------------------------------------------------------- *)
(** ** [flatten]: the collapsed shape *)



Lemma select_range (s : list nat) :
  forall i a e,
    select (fun j => (a <=? j)%Z && (j <=? e)%Z) i s
    = firstn (Z.to_nat (e + 1 - Z.max a i)) (skipn (Z.to_nat (a - i)) s).
Proof.
  induction s as [|d s IH]; intros i a e; simpl.
  - now rewrite skipn_nil, firstn_nil.
  - rewrite IH. destruct (a <=? i)%Z eqn:Ea; destruct (i <=? e)%Z eqn:Ee; simpl;
      try apply Z.leb_le in Ea; try apply Z.leb_gt in Ea;
      try apply Z.leb_le in Ee; try apply Z.leb_gt in Ee.
    + replace (Z.to_nat (a - i)) with 0 by lia.
      replace (Z.to_nat (a - (i + 1))) with 0 by lia.
      replace (Z.to_nat (e + 1 - Z.max a i)) with (S (Z.to_nat (e + 1 - Z.max a (i + 1)))) by lia.
      reflexivity.
    + replace (Z.to_nat (e + 1 - Z.max a i)) with 0 by lia.
      replace (Z.to_nat (e + 1 - Z.max a (i + 1))) with 0 by lia.
      reflexivity.
    + replace (Z.to_nat (a - i)) with (S (Z.to_nat (a - (i + 1)))) by lia.
      replace (Z.max a (i + 1)) with (Z.max a i) by lia.
      reflexivity.
    + replace (Z.to_nat (a - i)) with (S (Z.to_nat (a - (i + 1)))) by lia.
      replace (Z.max a (i + 1)) with (Z.max a i) by lia.
      reflexivity.
Qed.

Lemma firstn_skipn_clamped (A : Type) (l : list A) (lo hi : nat) :
  firstn (Nat.min (length l) hi - Nat.min (length l) lo) (skipn (Nat.min (length l) lo) l)
  = firstn (hi - lo) (skipn lo l).
Proof.
  destruct (Nat.le_gt_cases lo (length l)) as [Hlo|Hlo].
  - rewrite (Nat.min_r _ lo) by lia.
    destruct (Nat.le_gt_cases hi (length l)) as [Hhi|Hhi].
    + now rewrite (Nat.min_r _ hi) by lia.
    + rewrite (Nat.min_l _ hi) by lia.
      rewrite !firstn_all2; try reflexivity; rewrite length_skipn; lia.
  - rewrite (Nat.min_l _ lo) by lia.
    rewrite (skipn_all2 l (n := lo)) by lia.
    rewrite skipn_all. now rewrite !firstn_nil.
Qed.

Lemma slice_nonneg (A : Type) (l : list A) (lo hi : Z) :
  (0 <= lo)%Z -> (0 <= hi)%Z ->
  Py.slice l (Some lo) (Some hi)
  = firstn (Z.to_nat hi - Z.to_nat lo) (skipn (Z.to_nat lo) l).
Proof.
  intros Hlo Hhi. unfold Py.slice, Py.clamp.
  destruct (lo <? 0)%Z eqn:E1; [apply Z.ltb_lt in E1; lia|].
  destruct (hi <? 0)%Z eqn:E2; [apply Z.ltb_lt in E2; lia|].
  rewrite <- (firstn_skipn_clamped l (Z.to_nat lo) (Z.to_nat hi)).
  f_equal; [|f_equal]; lia.
Qed.

Lemma slice_prefix (A : Type) (l : list A) (hi : Z) :
  (0 <= hi)%Z -> Py.slice l None (Some hi) = firstn (Z.to_nat hi) l.
Proof.
  intros Hhi. unfold Py.slice, Py.clamp.
  destruct (hi <? 0)%Z eqn:E2; [apply Z.ltb_lt in E2; lia|].
  simpl skipn.
  pose proof (firstn_skipn_clamped l 0 (Z.to_nat hi)) as H.
  rewrite Nat.min_0_r, !Nat.sub_0_r in H. simpl skipn in H.
  rewrite <- H. f_equal. lia.
Qed.

Lemma slice_suffix (A : Type) (l : list A) (lo : Z) :
  (0 <= lo)%Z -> Py.slice l (Some lo) None = skipn (Z.to_nat lo) l.
Proof.
  intros Hlo. unfold Py.slice, Py.clamp.
  destruct (lo <? 0)%Z eqn:E1; [apply Z.ltb_lt in E1; lia|].
  destruct (Nat.le_gt_cases (Z.to_nat lo) (length l)) as [H|H].
  - replace (Z.to_nat (Z.max 0 (Z.min (Z.of_nat (length l)) lo))) with (Z.to_nat lo) by lia.
    apply firstn_all2. rewrite length_skipn. lia.
  - replace (Z.to_nat (Z.max 0 (Z.min (Z.of_nat (length l)) lo))) with (length l) by lia.
    rewrite skipn_all, (skipn_all2 l (n := Z.to_nat lo)) by lia.
    now rewrite firstn_nil.
Qed.

Lemma nelems_collapse (s : list nat) (lo hi : nat) :
  lo <= hi ->
  nelems (firstn lo s ++ [nelems (firstn (hi - lo) (skipn lo s))] ++ skipn hi s) = nelems s.
Proof.
  intros H.
  rewrite <- (firstn_skipn lo s) at 4.
  rewrite <- (firstn_skipn (hi - lo) (skipn lo s)) at 2.
  rewrite skipn_skipn. replace (hi - lo + lo) with hi by lia.
  rewrite !nelems_app. simpl. lia.
Qed.


Lemma prod_of_nat (l : list nat) :
  fold_right Z.mul 1%Z (map Z.of_nat l) = Z.of_nat (nelems l).
Proof.
  induction l as [|d l IH]; simpl; [reflexivity|].
  rewrite IH. lia.
Qed.

Lemma int32_wrap_small (z : Z) : (0 <= z <= Int32.max)%Z -> Int32.wrap z = z.
Proof.
  unfold Int32.wrap, Int32.max. intros H.
  rewrite Z.mod_small; lia.
Qed.

Lemma reduce_prod_small (l : list nat) :
  (Z.of_nat (nelems l) <= Int32.max)%Z ->
  reduce_prod (map Z.of_nat l) = Z.of_nat (nelems l).
Proof.
  intros H. unfold reduce_prod. rewrite prod_of_nat.
  apply int32_wrap_small. lia.
Qed.

Lemma slice_map (A B : Type) (f : A -> B) (l : list A) (lo hi : option Z) :
  Py.slice (map f l) lo hi = map f (Py.slice l lo hi).
Proof.
  unfold Py.slice. now rewrite length_map, skipn_map, firstn_map.
Qed.

Lemma tf_reshape_int32_of_nat (A : Type) (t : Tensor A) (s : list nat) :
  tf_reshape_int32 t (map Z.of_nat s) = tf_reshape t s.
Proof.
  unfold tf_reshape_int32, tf_reshape.
  assert (H1 : existsb (fun d => (d <? -1)%Z) (map Z.of_nat s) = false).
  { induction s as [|d s IH]; cbn [map existsb]; [reflexivity|].
    rewrite IH. destruct (Z.ltb_spec (Z.of_nat d) (-1)); [lia | reflexivity]. }
  assert (H2 : filter (fun d => (d =? -1)%Z) (map Z.of_nat s) = []).
  { clear H1. induction s as [|d s IH]; cbn [map filter]; [reflexivity|].
    destruct (Z.eqb_spec (Z.of_nat d) (-1)); [lia | exact IH]. }
  assert (H3 : map Z.to_nat (map Z.of_nat s) = s).
  { rewrite map_map. rewrite <- (map_id s) at 2.
    apply map_ext. intros d. apply Nat2Z.id. }
  now rewrite H1, H2, H3.
Qed.

Lemma resolve_dim_nonneg (r : nat) (d : Z) : (0 <= d)%Z -> resolve_dim r d = d.
Proof.
  intros H. unfold resolve_dim. destruct (d <? 0)%Z eqn:E; [|reflexivity].
  apply Z.ltb_lt in E. lia.
Qed.

(** [flatten] on a range that starts at a valid index and whose sizes
    multiply to a 32-bit integer. *)
Lemma flatten_resolved (A : Type) (x : Tensor A) (start_dim end_dim : Z) :
  wf x ->
  (0 <= resolve_dim (rank x) start_dim)%Z ->
  (resolve_dim (rank x) start_dim < resolve_dim (rank x) end_dim)%Z ->
  (Z.of_nat (nelems (firstn (Z.to_nat (resolve_dim (rank x) end_dim + 1)
                             - Z.to_nat (resolve_dim (rank x) start_dim))
                       (skipn (Z.to_nat (resolve_dim (rank x) start_dim)) (shape x))))
   <= Int32.max)%Z ->
  flatten x start_dim end_dim
  = Ok (mkTensor
          (firstn (Z.to_nat (resolve_dim (rank x) start_dim)) (shape x)
             ++ [nelems (firstn (Z.to_nat (resolve_dim (rank x) end_dim + 1)
                                 - Z.to_nat (resolve_dim (rank x) start_dim))
                           (skipn (Z.to_nat (resolve_dim (rank x) start_dim)) (shape x)))]
             ++ skipn (Z.to_nat (resolve_dim (rank x) end_dim + 1)) (shape x))
          (data x)).
Proof.
  intros Hwf H0 Hlt Hsmall.
  unfold flatten, tf_shape.
  fold (resolve_dim (rank x) end_dim). fold (resolve_dim (rank x) start_dim).
  set (a := resolve_dim (rank x) start_dim) in *.
  set (e := resolve_dim (rank x) end_dim) in *.
  destruct (a =? e)%Z eqn:E; [apply Z.eqb_eq in E; lia|].
  rewrite !slice_map.
  rewrite slice_prefix, slice_suffix, slice_nonneg by lia.
  rewrite reduce_prod_small by exact Hsmall.
  match goal with
  | |- context [[Z.of_nat ?p]] => change [Z.of_nat p] with (map Z.of_nat [p])
  end.
  rewrite <- !map_app, tf_reshape_int32_of_nat.
  unfold tf_reshape.
  rewrite nelems_collapse by lia.
  unfold wf in Hwf. rewrite Hwf, Nat.eqb_refl. reflexivity.
Qed.



Example flatten_product_wraps_negative :
  flatten (mkTensor [2 ^ 16; 2 ^ 15; 0] (@nil Z)) 0 1 = Raise InvalidArgumentError.
Proof. vm_compute. reflexivity. Qed.


(* ----------------------------------------------------------------- *)
(** ** [functional_layernorm]: the errors it raises *)










(* ----------------------------------------------------------------- *)
(** ** [functional_layernorm]: the parameters that reach the normalization *)

Lemma shape_list_as_tf (A : Type) (t : Tensor A) :
  shape_list (as_tf t) = Entries (map StaticDim (shape t)).
Proof.
  unfold as_tf. simpl. f_equal. now apply enumerate_from_known.
Qed.

Lemma tf_axis_index (r : nat) (axis : Z) (k : nat) :
  tf_axis r axis = Ok k -> Py.index r axis = Ok k /\ k < r.
Proof.
  unfold tf_axis, Py.index.
  destruct ((0 <=? axis) && (axis <? Z.of_nat r))%Z eqn:E1.
  - intros H. inversion H. split; [reflexivity|].
    apply andb_true_iff in E1. destruct E1 as [E1 E2].
    apply Z.leb_le in E1. apply Z.ltb_lt in E2. lia.
  - destruct ((- Z.of_nat r <=? axis) && (axis <? 0))%Z eqn:E2; [|discriminate].
    intros H. inversion H. split; [reflexivity|].
    apply andb_true_iff in E2. destruct E2 as [E2 E3].
    apply Z.leb_le in E2. apply Z.ltb_lt in E3. lia.
Qed.

Lemma map_update (A B : Type) (f : A -> B) (l : list A) :
  forall k a, map f (Py.update l k a) = Py.update (map f l) k (f a).
Proof.
  induction l as [|x l IH]; intros [|k] a; simpl; try reflexivity.
  now rewrite IH.
Qed.

Lemma length_update (A : Type) (l : list A) :
  forall k a, length (Py.update l k a) = length l.
Proof.
  induction l as [|x l IH]; intros [|k] a; simpl; try reflexivity.
  now rewrite IH.
Qed.




Lemma nelems_repeat_ones (r : nat) : nelems (repeat 1 r) = 1.
Proof.
  induction r as [|r IH]; simpl; [reflexivity|]. rewrite IH. reflexivity.
Qed.

Lemma nelems_update_ones (n r : nat) :
  forall k, k < r -> nelems (Py.update (repeat 1 r) k n) = n.
Proof.
  induction r as [|r IH]; intros k Hk; [lia|].
  destruct k as [|k]; simpl.
  - rewrite nelems_repeat_ones. lia.
  - rewrite IH by lia. lia.
Qed.





(* ----------------------------------------------------------------- *)
(** ** Offsets and multi-indices *)

Lemma unravel_valid (s : list nat) :
  forall p, p < nelems s -> valid s (unravel s p).
Proof.
  induction s as [|n s IH]; intros p Hp; simpl in *.
  - exact I.
  - assert (Hpos : nelems s <> 0) by (intros E; rewrite E in Hp; lia).
    split.
    + apply Nat.Div0.div_lt_upper_bound. lia.
    + apply IH. now apply Nat.mod_upper_bound.
Qed.

Lemma unravel_ravel (s : list nat) :
  forall idx, valid s idx -> unravel s (ravel s idx) = idx.
Proof.
  induction s as [|n s IH]; intros [|i idx] Hv; simpl in *; try tauto.
  destruct Hv as [Hi Hv].
  pose proof (ravel_lt s idx Hv) as Hr.
  f_equal.
  - symmetry. apply (Nat.div_unique _ _ _ (ravel s idx)); lia.
  - rewrite <- (IH idx Hv) at 2. f_equal.
    symmetry. apply (Nat.mod_unique _ _ i); lia.
Qed.

Lemma get_tabulate (A : Type) (d : A) (s : list nat) (f : list nat -> A) (idx : list nat) :
  valid s idx -> get d (tabulate s f) idx = f idx.
Proof.
  intros Hv. unfold get, tabulate. simpl.
  pose proof (ravel_lt s idx Hv) as Hr.
  rewrite (nth_indep _ d (f (unravel s 0))) by (now rewrite length_map, length_seq).
  rewrite (map_nth (fun p => f (unravel s p)) (seq 0 (nelems s)) 0).
  rewrite seq_nth by exact Hr. simpl.
  now rewrite unravel_ravel.
Qed.

Lemma tabulate_ext (A : Type) (s : list nat) (f g : list nat -> A) :
  (forall idx, valid s idx -> f idx = g idx) -> tabulate s f = tabulate s g.
Proof.
  intros H. unfold tabulate. f_equal.
  apply map_ext_in. intros p Hp. apply in_seq in Hp.
  apply H. apply unravel_valid. lia.
Qed.

Lemma wf_tabulate (A : Type) (s : list nat) (f : list nat -> A) : wf (tabulate s f).
Proof.
  unfold wf, tabulate. simpl. now rewrite length_map, length_seq.
Qed.

Lemma wf_tmap (A B : Type) (f : A -> B) (t : Tensor A) : wf t -> wf (tmap f t).
Proof.
  unfold wf, tmap. simpl. now rewrite length_map.
Qed.

Lemma valid_length (s : list nat) :
  forall idx, valid s idx -> length idx = length s.
Proof.
  induction s as [|n s IH]; intros [|i idx] Hv; simpl in *; try tauto.
  f_equal. apply IH. tauto.
Qed.

Lemma valid_nth (s : list nat) :
  forall idx k, valid s idx -> k < length s -> nth k idx 0 < nth k s 0.
Proof.
  induction s as [|n s IH]; intros [|i idx] k Hv Hk; simpl in *; try tauto; try lia.
  destruct Hv as [Hi Hv]. destruct k as [|k]; [exact Hi|].
  apply IH; [exact Hv | lia].
Qed.

Lemma valid_update (s : list nat) :
  forall idx k j, valid s idx -> j < nth k s 0 -> valid s (Py.update idx k j).
Proof.
  induction s as [|n s IH]; intros [|i idx] k j Hv Hj; simpl in *; try tauto.
  destruct Hv as [Hi Hv]. destruct k as [|k]; simpl.
  - tauto.
  - split; [exact Hi|]. now apply IH.
Qed.

Lemma update_update (A : Type) (l : list A) :
  forall k a b, Py.update (Py.update l k a) k b = Py.update l k b.
Proof.
  induction l as [|x l IH]; intros [|k] a b; simpl; try reflexivity.
  now rewrite IH.
Qed.

(* ----------------------------------------------------------------- *)
(** ** Finite sums *)

Open Scope R_scope.

Lemma sum_upto_ext (n : nat) (f g : nat -> R) :
  (forall j, (j < n)%nat -> f j = g j) -> sum_upto n f = sum_upto n g.
Proof.
  intros H. unfold sum_upto. f_equal. apply map_ext_in.
  intros j Hj. apply in_seq in Hj. apply H. lia.
Qed.

Lemma sum_list_scale (c : R) (f : nat -> R) (l : list nat) :
  fold_right Rplus 0 (map (fun j => f j * c) l) = fold_right Rplus 0 (map f l) * c.
Proof.
  induction l as [|x l IH]; simpl.
  - ring.
  - rewrite IH. ring.
Qed.

Lemma sum_upto_scale (n : nat) (c : R) (f : nat -> R) :
  sum_upto n (fun j => f j * c) = sum_upto n f * c.
Proof. apply sum_list_scale. Qed.

Lemma sum_list_nonneg (f : nat -> R) (l : list nat) :
  (forall j, 0 <= f j) -> 0 <= fold_right Rplus 0 (map f l).
Proof.
  intros H. induction l as [|x l IH]; simpl.
  - lra.
  - specialize (H x). lra.
Qed.

Lemma sum_upto_exp_pos (n : nat) (a : nat -> R) :
  (0 < n)%nat -> 0 < sum_upto n (fun j => exp (a j)).
Proof.
  intros Hn. unfold sum_upto. destruct n as [|n]; [lia|].
  simpl.
  pose proof (exp_pos (a 0%nat)) as H0.
  pose proof (sum_list_nonneg (fun j => exp (a j)) (seq 1 n)
                (fun j => Rlt_le _ _ (exp_pos (a j)))) as H1.
  lra.
Qed.

Close Scope R_scope.

(* ----------------------------------------------------------------- *)
(** ** [stable_softmax] *)

Open Scope R_scope.

Lemma tf_axis_last (r : nat) : tf_axis r (-1) = tf_axis r (Z.of_nat r - 1).
Proof.
  unfold tf_axis. destruct r as [|r].
  - reflexivity.
  - replace ((0 <=? -1) && (-1 <? Z.of_nat (S r)))%Z with false by reflexivity.
    replace ((- Z.of_nat (S r) <=? -1) && (-1 <? 0))%Z with true
      by (symmetry; apply andb_true_iff; split; [apply Z.leb_le; lia | reflexivity]).
    replace ((0 <=? Z.of_nat (S r) - 1) && (Z.of_nat (S r) - 1 <? Z.of_nat (S r)))%Z with true
      by (symmetry; apply andb_true_iff; split; [apply Z.leb_le | apply Z.ltb_lt]; lia).
    f_equal; lia.
Qed.

Lemma along_tmap (f : R -> R) (x : Tensor R) (k : nat) (idx : list nat) (j : nat) :
  wf x -> valid (shape x) idx -> (j < nth k (shape x) 0)%nat ->
  along (tmap f x) k idx j = f (along x k idx j).
Proof.
  intros Hwf Hv Hj. unfold along.
  apply get_tmap; [exact Hwf|]. now apply valid_update.
Qed.

Lemma softmax_shift (x : Tensor R) (c : R) (axis : option Z) :
  wf x -> tf_nn_softmax (tmap (fun v => v + c) x) axis = tf_nn_softmax x axis.
Proof.
  intros Hwf. unfold tf_nn_softmax.
  change (rank (tmap (fun v => v + c) x)) with (rank x).
  change (shape (tmap (fun v => v + c) x)) with (shape x).
  destruct (tf_axis (rank x) match axis with Some a => a | None => (-1)%Z end) as [k|e] eqn:Hax;
    [|reflexivity].
  simpl. f_equal. apply tabulate_ext. intros idx Hv.
  destruct (@tf_axis_index _ _ _ Hax) as [_ Hk].
  pose proof (@valid_nth _ _ k Hv Hk) as Hn.
  set (n := nth k (shape x) 0%nat) in *.
  rewrite (@get_tmap _ _ _ 0) by assumption.
  rewrite (@sum_upto_ext n (fun j => exp (along (tmap (fun v => v + c) x) k idx j))
             (fun j => exp (along x k idx j) * exp c)).
  - rewrite sum_upto_scale, exp_plus.
    assert (HT : 0 < sum_upto n (fun j => exp (along x k idx j)))
      by (apply sum_upto_exp_pos; lia).
    pose proof (exp_pos c) as Hc.
    field. split; lra.
  - intros j Hj. rewrite along_tmap by assumption. apply exp_plus.
Qed.

Lemma softmax_sums_to_one (x : Tensor R) (k : nat) (idx : list nat) :
  (k < rank x)%nat -> valid (shape x) idx ->
  sum_upto (nth k (shape x) 0%nat)
    (fun j => along (tabulate (shape x)
                       (fun i => exp (get 0 x i)
                                 / sum_upto (nth k (shape x) 0%nat)
                                     (fun j' => exp (along x k i j'))))
                k idx j)
  = 1.
Proof.
  intros Hk Hv.
  pose proof (@valid_nth _ _ k Hv Hk) as Hn.
  set (n := nth k (shape x) 0%nat) in *.
  assert (HT : 0 < sum_upto n (fun j => exp (along x k idx j)))
    by (apply sum_upto_exp_pos; lia).
  rewrite (@sum_upto_ext n _
             (fun j => exp (along x k idx j) * / sum_upto n (fun j' => exp (along x k idx j')))).
  - rewrite sum_upto_scale. field. lra.
  - intros j Hj. unfold along at 1.
    rewrite get_tabulate by (now apply valid_update).
    unfold along. rewrite (@sum_upto_ext n _ (fun j' => exp (get 0 x (Py.update idx k j')))).
    + reflexivity.
    + intros j' _. now rewrite update_update.
Qed.

(** C2. [stable_softmax(logits, axis)] is [tf.nn.softmax] applied to
    [logits + 1e-9] with the same [axis]; an omitted [axis] means the last
    dimension.  In exact arithmetic this is the softmax of [logits] itself
    (so the two agree within 1e-6, as within any tolerance), and along the
    axis the result sums to 1. *)
Theorem stable_softmax_is_softmax (logits : Tensor R) (axis : option Z) :
  stable_softmax logits axis = tf_nn_softmax (tmap (fun x => x + 1 / 10 ^ 9) logits) axis
  /\ stable_softmax logits None = stable_softmax logits (Some (Z.of_nat (rank logits) - 1)%Z)
  /\ (wf logits ->
      stable_softmax logits axis = tf_nn_softmax logits axis
      /\ forall k,
           tf_axis (rank logits) (match axis with Some a => a | None => (-1)%Z end) = Ok k ->
           exists out,
             stable_softmax logits axis = Ok out
             /\ shape out = shape logits
             /\ (forall idx, valid (shape logits) idx ->
                   sum_upto (nth k (shape logits) 0%nat) (fun j => along out k idx j) = 1)
             /\ (forall standard idx,
                   tf_nn_softmax logits axis = Ok standard ->
                   Rabs (get 0 out idx - get 0 standard idx) <= 1 / 10 ^ 6)).
Proof.
  split; [reflexivity|]. split.
  - unfold stable_softmax, tf_nn_softmax.
    change (rank (tmap (fun x => x + 1 / 10 ^ 9) logits)) with (rank logits).
    now rewrite tf_axis_last.
  - intros Hwf.
    assert (Heq : stable_softmax logits axis = tf_nn_softmax logits axis)
      by (now apply softmax_shift).
    split; [exact Heq|].
    intros k Hax. rewrite Heq. unfold tf_nn_softmax. rewrite Hax. simpl.
    eexists. split; [reflexivity|]. split; [reflexivity|]. split.
    + intros idx Hv. destruct (@tf_axis_index _ _ _ Hax) as [_ Hk].
      now apply softmax_sums_to_one.
    + intros standard idx Hstd. inversion Hstd as [Hs].
      unfold Rminus. rewrite Rplus_opp_r, Rabs_R0. lra.
Qed.

Close Scope R_scope.

Lemma stable_softmax_is_softmax_witness :
  let logits := mkTensor [2; 2] [0; 1; 2; 3]%R in
  wf logits
  /\ tf_axis (rank logits) (-1) = Ok 1
  /\ exists out,
       stable_softmax logits None = Ok out
       /\ shape out = [2; 2]
       /\ sum_upto 2 (fun j => along out 1 [0; 0] j) = 1%R.
Proof.
  intros logits.
  assert (Hwf : wf logits) by reflexivity.
  assert (Hax : tf_axis (rank logits) (-1) = Ok 1) by reflexivity.
  split; [exact Hwf|]. split; [exact Hax|].
  destruct (stable_softmax_is_softmax logits None) as (_ & _ & H).
  destruct (H Hwf) as [_ H2].
  destruct (H2 1 Hax) as (out & Hout & Hshape & Hsum & _).
  exists out. split; [exact Hout|]. split; [exact Hshape|].
  apply (Hsum [0; 0]). simpl. lia.
Defined.

(* ----------------------------------------------------------------- *)
(** ** Broadcasting *)

Lemma broadcast_shape_same_length (a b : list nat) :
  length a = length b -> broadcast_shape a b = zip_dims a b.
Proof.
  intros H. unfold broadcast_shape, pad_shape.
  rewrite H, Nat.max_id, Nat.sub_diag. reflexivity.
Qed.

Lemma zip_dims_same (s : list nat) : zip_dims s s = Some s.
Proof.
  induction s as [|n s IH]; simpl; [reflexivity|].
  now rewrite IH, Nat.eqb_refl.
Qed.

Lemma zip_dims_ones_r (s : list nat) : zip_dims s (repeat 1 (length s)) = Some s.
Proof.
  induction s as [|n s IH]; simpl; [reflexivity|].
  rewrite IH. destruct (n =? 1); reflexivity.
Qed.

Lemma zip_dims_ones_l (s : list nat) : zip_dims (repeat 1 (length s)) s = Some s.
Proof.
  induction s as [|n s IH]; simpl; [reflexivity|].
  rewrite IH. destruct n as [|[|n]]; reflexivity.
Qed.

Lemma zip_dims_update_r (s : list nat) :
  forall k, zip_dims s (Py.update s k 1) = Some s.
Proof.
  induction s as [|n s IH]; intros [|k]; simpl; try reflexivity.
  - rewrite zip_dims_same. destruct (n =? 1); reflexivity.
  - now rewrite IH, Nat.eqb_refl.
Qed.





Lemma zero_ones_valid (s : list nat) :
  forall idx, valid s idx -> zero_ones s idx = idx.
Proof.
  induction s as [|n s IH]; intros [|i idx] Hv; simpl in *; try tauto.
  destruct Hv as [Hi Hv]. rewrite (IH idx Hv).
  destruct (Nat.eqb_spec n 1); [f_equal; lia | reflexivity].
Qed.

Lemma zero_ones_keepdims (s : list nat) :
  forall idx k, valid s idx -> zero_ones (Py.update s k 1) idx = Py.update idx k 0.
Proof.
  induction s as [|n s IH]; intros [|i idx] k Hv; simpl in *; try tauto.
  destruct Hv as [Hi Hv]. destruct k as [|k]; simpl.
  - now rewrite zero_ones_valid.
  - rewrite (IH idx k Hv). destruct (Nat.eqb_spec n 1); [f_equal; lia | reflexivity].
Qed.



Lemma bget_same (t : Tensor R) (idx : list nat) :
  valid (shape t) idx -> bget t idx = get 0%R t idx.
Proof.
  intros Hv. unfold bget, bidx.
  rewrite (valid_length _ _ Hv), Nat.sub_diag. simpl skipn.
  now rewrite zero_ones_valid.
Qed.

Lemma bget_keepdims (t : Tensor R) (s idx : list nat) (k : nat) :
  shape t = Py.update s k 1 -> valid s idx ->
  bget t idx = get 0%R t (Py.update idx k 0).
Proof.
  intros Hs Hv. unfold bget, bidx. rewrite Hs.
  rewrite length_update, (valid_length _ _ Hv), Nat.sub_diag. simpl skipn.
  now rewrite zero_ones_keepdims.
Qed.


Lemma skipn_last (idx : list nat) :
  1 <= length idx -> skipn (length idx - 1) idx = [nth (length idx - 1) idx 0].
Proof.
  induction idx as [|i idx IH]; simpl; [lia|]. intros _.
  destruct idx as [|i' idx]; [reflexivity|].
  replace (length (i' :: idx) - 0) with (S (length (i' :: idx) - 1)) by (simpl; lia).
  apply IH. simpl. lia.
Qed.


(* ----------------------------------------------------------------- *)
(** ** [tf.nn.moments] and [tf.nn.batch_normalization] *)

Open Scope R_scope.

Lemma valid_keepdims (s : list nat) :
  forall idx k, valid s idx -> valid (Py.update s k 1%nat) (Py.update idx k 0%nat).
Proof.
  induction s as [|n s IH]; intros [|i idx] k Hv; simpl in *; try tauto.
  destruct Hv as [Hi Hv]. destruct k as [|k]; simpl.
  - split; [lia | exact Hv].
  - split; [exact Hi | now apply IH].
Qed.

Lemma mean_along_update (x : Tensor R) (k : nat) (idx : list nat) (j : nat) :
  mean_along x k (Py.update idx k j) = mean_along x k idx.
Proof.
  unfold mean_along, along. f_equal.
  apply sum_upto_ext. intros j' _. now rewrite update_update.
Qed.

Lemma get_keepdims_tabulate (s : list nat) (k : nat) (f : list nat -> R) (idx : list nat) :
  valid s idx ->
  bget (tabulate (Py.update s k 1%nat) f) idx = f (Py.update idx k 0%nat).
Proof.
  intros Hv.
  rewrite (@bget_keepdims _ s idx k) by (reflexivity || exact Hv).
  apply get_tabulate. now apply valid_keepdims.
Qed.

Lemma bget_tabulate (s : list nat) (f : list nat -> R) (idx : list nat) :
  valid s idx -> bget (tabulate s f) idx = f idx.
Proof.
  intros Hv. rewrite bget_same by exact Hv. now apply get_tabulate.
Qed.

Lemma moments_value (x : Tensor R) (axis : Z) (k : nat) :
  tf_axis (rank x) axis = Ok k ->
  exists mean variance,
    tf_nn_moments x axis = Ok (mean, variance)
    /\ shape mean = Py.update (shape x) k 1%nat
    /\ shape variance = Py.update (shape x) k 1%nat
    /\ wf variance
    /\ (forall idx, valid (shape x) idx -> bget mean idx = mean_along x k idx)
    /\ (forall idx, valid (shape x) idx -> bget variance idx = var_along x k idx).
Proof.
  intros Hax. unfold tf_nn_moments. rewrite Hax. simpl bind.
  unfold broadcast_op.
  change (shape (tf_reduce_mean x k)) with (Py.update (shape x) k 1%nat).
  rewrite broadcast_shape_same_length by (now rewrite length_update).
  rewrite zip_dims_update_r. simpl bind.
  assert (Hmean : forall idx, valid (shape x) idx ->
                    bget (tf_reduce_mean x k) idx = mean_along x k idx).
  { intros idx Hv. unfold tf_reduce_mean.
    rewrite get_keepdims_tabulate by exact Hv. apply mean_along_update. }
  eexists. eexists. split; [reflexivity|].
  split; [reflexivity|]. split; [reflexivity|]. split; [apply wf_tabulate|].
  split; [exact Hmean|].
  intros idx Hv. unfold tf_reduce_mean at 1.
  change (shape (tabulate (shape x)
                   (fun idx0 => (bget x idx0 - bget (tf_reduce_mean x k) idx0)
                                * (bget x idx0 - bget (tf_reduce_mean x k) idx0))))
    with (shape x).
  rewrite get_keepdims_tabulate by exact Hv.
  rewrite mean_along_update.
  unfold mean_along at 1, var_along. simpl shape. f_equal.
  apply sum_upto_ext. intros j Hj.
  assert (Hvj : valid (shape x) (Py.update idx k j)) by (now apply valid_update).
  unfold along at 1. rewrite get_tabulate by exact Hvj.
  rewrite bget_same by exact Hvj. rewrite Hmean by exact Hvj.
  rewrite mean_along_update. reflexivity.
Qed.



Close Scope R_scope.

(* ----------------------------------------------------------------- *)
(** ** [functional_layernorm]: the value it computes *)

Open Scope R_scope.



Close Scope R_scope.




Open Scope R_scope.

Lemma tf_axis_nonneg (r k : nat) : (k < r)%nat -> tf_axis r (Z.of_nat k) = Ok k.
Proof.
  intros Hk. unfold tf_axis.
  replace ((0 <=? Z.of_nat k) && (Z.of_nat k <? Z.of_nat r))%Z with true
    by (symmetry; apply andb_true_iff; split; [apply Z.leb_le | apply Z.ltb_lt]; lia).
  now rewrite Nat2Z.id.
Qed.


Close Scope R_scope.


(* ----------------------------------------------------------------- *)
(** ** [functional_layernorm]: input that is already normalized *)

Open Scope R_scope.





Close Scope R_scope.




(* ================================================================= *)
(** * Further properties *)

(* ----------------------------------------------------------------- *)
(** ** [shape_list]: what the entries stand for *)




(* ----------------------------------------------------------------- *)
(** ** [flatten]: elements, default arguments, composition, edge cases *)

Lemma nelems_infer (s : list Z) (q : nat) :
  nelems (map (fun d => if (d =? -1)%Z then q else Z.to_nat d) s)
  = q ^ length (filter (fun d => (d =? -1)%Z) s)
    * nelems (map Z.to_nat (filter (fun d => negb (d =? -1)%Z) s)).
Proof.
  induction s as [|d s IH]; cbn [map filter].
  - simpl. lia.
  - destruct (d =? -1)%Z; cbn [negb length map nelems fold_right];
      fold (nelems (map (fun d => if (d =? -1)%Z then q else Z.to_nat d) s));
      fold (nelems (map Z.to_nat (filter (fun d => negb (d =? -1)%Z) s)));
      rewrite IH; simpl; ring.
Qed.

Lemma tf_reshape_int32_ok (A : Type) (t out : Tensor A) (s : list Z) :
  tf_reshape_int32 t s = Ok out -> data out = data t /\ wf out.
Proof.
  unfold tf_reshape_int32.
  destruct (existsb _ s); [discriminate|].
  destruct (length (filter (fun d => (d =? -1)%Z) s)) as [|[|c]] eqn:Hc; [| |discriminate].
  - destruct (Nat.eqb_spec (nelems (map Z.to_nat s)) (length (data t))) as [E|E];
      [|discriminate].
    intros H. inversion H. subst out. unfold wf. simpl. auto.
  - set (known := nelems (map Z.to_nat (filter (fun d => negb (d =? -1)%Z) s))).
    destruct ((known =? 0) || negb (length (data t) mod known =? 0)) eqn:E; [discriminate|].
    apply orb_false_iff in E. destruct E as [E0 Em].
    apply Nat.eqb_neq in E0. apply negb_false_iff, Nat.eqb_eq in Em.
    intros H. inversion H. subst out. unfold wf. cbn [shape data].
    split; [reflexivity|].
    rewrite nelems_infer, Hc. fold known.
    apply Nat.Div0.div_exact in Em. rewrite Em at 1. simpl. lia.
Qed.

(** X2. Whatever its arguments, when [flatten] returns a tensor it holds the
    elements of the input, in the same order, and is well formed if the input
    is: [flatten] changes the shape only. *)
Theorem flatten_keeps_elements (A : Type) (x out : Tensor A) (start_dim end_dim : Z) :
  flatten x start_dim end_dim = Ok out ->
  data out = data x /\ (wf x -> wf out).
Proof.
  unfold flatten. cbv zeta.
  destruct (_ =? _)%Z.
  - intros H. inversion H. subst out. tauto.
  - intros H. apply tf_reshape_int32_ok in H. tauto.
Qed.

Lemma flatten_keeps_elements_witness :
  let x := mkTensor [2; 3] [1; 2; 3; 4; 5; 6]%Z in
  let out := mkTensor [6] [1; 2; 3; 4; 5; 6]%Z in
  flatten x 0 1 = Ok out /\ data out = data x /\ (wf x -> wf out).
Proof.
  intros x out.
  assert (H : flatten x 0 1 = Ok out) by reflexivity.
  split; [exact H|].
  exact (@flatten_keeps_elements Z x out 0%Z 1%Z H).
Defined.



Lemma firstn_plus_split (A : Type) (l : list A) :
  forall m n, firstn (m + n) l = firstn m l ++ firstn n (skipn m l).
Proof.
  induction l as [|x l IH]; intros [|m] n; simpl; try reflexivity.
  - now rewrite firstn_nil.
  - now rewrite IH.
Qed.

Lemma collapse_twice_parts (s : list nat) (a b1 c1 : nat) :
  a < b1 -> b1 < c1 -> a <= length s ->
  let s1 := firstn a s ++ [nelems (firstn (b1 - a) (skipn a s))] ++ skipn b1 s in
  firstn a s1 = firstn a s
  /\ nelems (firstn (c1 - b1 + a + 1 - a) (skipn a s1))
     = nelems (firstn (c1 - a) (skipn a s))
  /\ skipn (c1 - b1 + a + 1) s1 = skipn c1 s.
Proof.
  intros Hab Hbc Ha s1.
  assert (Hlen : length (firstn a s) = a) by (rewrite length_firstn; lia).
  assert (Hpre : firstn a s1 = firstn a s).
  { unfold s1. rewrite firstn_app, Hlen, Nat.sub_diag. simpl firstn at 2.
    rewrite app_nil_r, firstn_firstn. f_equal. lia. }
  assert (Hpost : skipn a s1
                  = nelems (firstn (b1 - a) (skipn a s)) :: skipn b1 s).
  { unfold s1. rewrite skipn_app, Hlen, Nat.sub_diag.
    rewrite (skipn_all2 (firstn a s)) by lia. reflexivity. }
  split; [exact Hpre|]. split.
  - rewrite Hpost.
    replace (c1 - b1 + a + 1 - a) with (S (c1 - b1)) by lia.
    replace (c1 - a) with ((b1 - a) + (c1 - b1)) by lia.
    rewrite firstn_plus_split, nelems_app, skipn_skipn.
    replace (b1 - a + a) with b1 by lia.
    simpl. reflexivity.
  - replace (c1 - b1 + a + 1) with (S (c1 - b1) + a) by lia.
    rewrite <- skipn_skipn, Hpost. simpl skipn.
    rewrite skipn_skipn. f_equal. lia.
Qed.

(** X4. Collapsing in two steps is collapsing in one: for valid axes
    [a < b < c] whose sizes multiply to 32-bit integers (those of [a .. b] and
    those of [a .. c]), flattening the axes [a .. b] and then, in the result,
    the new axis [a] together with the former axes [b + 1 .. c] (now
    [a + 1 .. c - (b - a)]) gives what flattening [a .. c] gives. *)
Theorem flatten_twice (A : Type) (x : Tensor A) (a b c : Z) :
  wf x ->
  (0 <= a)%Z -> (a < b)%Z -> (b < c)%Z -> (c < Z.of_nat (rank x))%Z ->
  (Z.of_nat (nelems (select (fun i => (a <=? i)%Z && (i <=? b)%Z) 0%Z (shape x)))
   <= Int32.max)%Z ->
  (Z.of_nat (nelems (select (fun i => (a <=? i)%Z && (i <=? c)%Z) 0%Z (shape x)))
   <= Int32.max)%Z ->
  (y <- flatten x a b ;; flatten y a (c - (b - a))) = flatten x a c.
Proof.
  intros Hwf Ha Hab Hbc Hc Hsb Hsc.
  rewrite select_range, Z.sub_0_r, Z.max_l in Hsb, Hsc by lia.
  replace (Z.to_nat (b + 1 - a)) with (Z.to_nat (b + 1) - Z.to_nat a) in Hsb by lia.
  replace (Z.to_nat (c + 1 - a)) with (Z.to_nat (c + 1) - Z.to_nat a) in Hsc by lia.
  rewrite (@flatten_resolved A x a b), (@flatten_resolved A x a c);
    rewrite ?resolve_dim_nonneg by lia; try lia; try exact Hwf; try assumption.
  cbn [bind].
  match goal with |- flatten ?y _ _ = _ => set (y0 := y) end.
  assert (Hwfy : wf y0).
  { unfold wf, y0. cbn [shape data]. rewrite nelems_collapse by lia. exact Hwf. }
  destruct (@collapse_twice_parts (shape x) (Z.to_nat a) (Z.to_nat (b + 1)) (Z.to_nat (c + 1)))
    as (Hpre & Hmid & Hend); try (unfold rank in Hc; lia).
  assert (Hd : Z.to_nat (c - (b - a) + 1)
               = Z.to_nat (c + 1) - Z.to_nat (b + 1) + Z.to_nat a + 1) by lia.
  rewrite (@flatten_resolved A y0 a (c - (b - a))%Z);
    rewrite ?resolve_dim_nonneg by lia; try lia; try exact Hwfy.
  - f_equal. unfold y0. cbn [shape data]. f_equal.
    rewrite Hd, Hpre, Hmid, Hend. reflexivity.
  - unfold y0. cbn [shape]. rewrite Hd, Hmid. exact Hsc.
Qed.

Lemma flatten_twice_witness :
  let x := mkTensor [2; 3; 4; 5] (repeat 0%Z 120) in
  wf x
  /\ (y <- flatten x 1 2 ;; flatten y 1 2) = flatten x 1 3
  /\ flatten x 1 3 = Ok (mkTensor [2; 60] (data x)).
Proof.
  intros x.
  assert (Hwf : wf x) by reflexivity.
  split; [exact Hwf|]. split; [|reflexivity].
  refine (@flatten_twice Z x 1%Z 2%Z 3%Z Hwf _ _ _ _ _ _);
    try (vm_compute; discriminate); try reflexivity.
Defined.



(* ----------------------------------------------------------------- *)
(** ** [invert_attention_mask]: what every result looks like *)

Lemma invert_attention_mask_result (A : Type) (D : DType A) (x : ArrayLike A) (out : Tensor A) :
  invert_attention_mask x = Ok out ->
  (rank (tf_convert_to_tensor x) = 2 \/ rank (tf_convert_to_tensor x) = 3)
  /\ rank out = 4
  /\ nelems (shape out) = nelems (shape (tf_convert_to_tensor x))
  /\ data out = map (fun m => mul (sub one m) dtype_min) (data (tf_convert_to_tensor x)).
Proof.
  unfold invert_attention_mask.
  replace (match x with TfValue t => t | NumpyValue _ => tf_convert_to_tensor x end)
    with (tf_convert_to_tensor x) by (destruct x; reflexivity).
  set (mask := tf_convert_to_tensor x).
  unfold rank, tf_getitem.
  destruct (shape mask) as [|b [|q [|k [|d s]]]] eqn:Hs; simpl; intros H;
    try discriminate; inversion H; subst out; simpl.
  - repeat split; auto; lia.
  - repeat split; auto; lia.
Qed.

(** X6. Whenever [invert_attention_mask] returns a tensor, its argument had
    rank 2 or 3, the result has rank 4 and as many elements as the mask, each
    of them [(1 - m) * dtype.min] for the element [m] of the mask at the same
    place in row-major order; a well-formed mask gives a well-formed result. *)
Theorem invert_attention_mask_rank_4 (A : Type) (D : DType A) (x : ArrayLike A) (out : Tensor A) :
  invert_attention_mask x = Ok out ->
  (rank (tf_convert_to_tensor x) = 2 \/ rank (tf_convert_to_tensor x) = 3)
  /\ rank out = 4
  /\ data out = map (fun m => mul (sub one m) dtype_min) (data (tf_convert_to_tensor x))
  /\ (wf (tf_convert_to_tensor x) -> wf out).
Proof.
  intros H. destruct (@invert_attention_mask_result A D x out H) as (Hr & H4 & Hn & Hd).
  repeat split; try assumption.
  unfold wf. intros Hwf. now rewrite Hd, length_map, Hn.
Qed.

Lemma invert_attention_mask_rank_4_witness :
  let x := NumpyValue (mkTensor [1; 2; 2] [1; 0; 1; 1]%Z) in
  let out := mkTensor [1; 1; 2; 2] [0; Int32.min; 0; 0]%Z in
  invert_attention_mask x = Ok out /\ rank out = 4 /\ (wf (tf_convert_to_tensor x) -> wf out).
Proof.
  intros x out.
  assert (H : invert_attention_mask x = Ok out) by reflexivity.
  split; [exact H|].
  destruct (@invert_attention_mask_rank_4 Z int32_dtype x out H) as (_ & H4 & _ & Hwf).
  split; [exact H4 | exact Hwf].
Defined.

Lemma float32_min_negative : (float32_min < 0)%R.
Proof.
  unfold float32_min.
  assert (H1 : (0 < 2 ^ 127)%R) by (apply pow_lt; lra).
  assert (H2 : (0 < / 2 ^ 23 <= 1)%R).
  { assert (H3 : (1 <= 2 ^ 23)%R) by (apply pow_R1_Rle; lra).
    split; [apply Rinv_0_lt_compat; lra|].
    rewrite <- Rinv_1. apply Rinv_le_contravar; lra. }
  nra.
Qed.

(** X7. For a floating-point mask whose elements all lie between 0 and 1,
    every element of the result lies between [dtype.min] and 0: added to
    attention scores, the result never raises a score. *)
Theorem invert_attention_mask_never_positive (x : ArrayLike R) (out : Tensor R) :
  invert_attention_mask x = Ok out ->
  Forall (fun m => 0 <= m <= 1)%R (data (tf_convert_to_tensor x)) ->
  Forall (fun v => float32_min <= v <= 0)%R (data out).
Proof.
  intros H Hm.
  destruct (@invert_attention_mask_result R float32_dtype x out H) as (_ & _ & _ & Hd).
  rewrite Hd. apply Forall_map. revert Hm. apply Forall_impl.
  intros m Hm. simpl. pose proof float32_min_negative. nra.
Qed.

Lemma binary_mask_in_range : Forall (fun m => 0 <= m <= 1)%R [1; 0; 1]%R.
Proof. repeat constructor; lra. Qed.

Lemma invert_attention_mask_never_positive_witness :
  let x := TfValue (mkTensor [1; 3] [1; 0; 1]%R) in
  exists out,
    invert_attention_mask x = Ok out
    /\ Forall (fun v => float32_min <= v <= 0)%R (data out).
Proof.
  intros x.
  exists (mkTensor [1; 1; 1; 3]
            [mul (sub one 1%R) dtype_min; mul (sub one 0%R) dtype_min;
             mul (sub one 1%R) dtype_min]).
  split; [reflexivity|].
  apply (@invert_attention_mask_never_positive x); [reflexivity | exact binary_mask_in_range].
Defined.

(* ----------------------------------------------------------------- *)
(** ** [stable_softmax]: probabilities, shifts, uniform logits *)

Open Scope R_scope.

Lemma update_nth_same (idx : list nat) :
  forall k, Py.update idx k (nth k idx 0%nat) = idx.
Proof.
  induction idx as [|i idx IH]; intros [|k]; simpl; try reflexivity.
  now rewrite IH.
Qed.

Lemma sum_list_term_le (f : nat -> R) (l : list nat) (i : nat) :
  (forall j, 0 <= f j) -> In i l -> f i <= fold_right Rplus 0 (map f l).
Proof.
  intros Hf. induction l as [|x l IH]; simpl; [tauto|].
  intros [->|Hin].
  - pose proof (sum_list_nonneg f l Hf). lra.
  - specialize (IH Hin). specialize (Hf x). lra.
Qed.

Lemma sum_upto_term_le (n : nat) (f : nat -> R) (i : nat) :
  (forall j, 0 <= f j) -> (i < n)%nat -> f i <= sum_upto n f.
Proof.
  intros Hf Hi. apply sum_list_term_le; [exact Hf|]. apply in_seq. lia.
Qed.

Lemma sum_upto_const (n : nat) (c : R) : sum_upto n (fun _ => c) = INR n * c.
Proof.
  unfold sum_upto. generalize 0%nat.
  induction n as [|n IH]; intros st.
  - simpl. ring.
  - rewrite S_INR. simpl. rewrite IH. ring.
Qed.

Lemma stable_softmax_value (logits : Tensor R) (axis : option Z) (k : nat) :
  wf logits ->
  tf_axis (rank logits) (match axis with Some a => a | None => (-1)%Z end) = Ok k ->
  exists out,
    stable_softmax logits axis = Ok out
    /\ shape out = shape logits
    /\ forall idx, valid (shape logits) idx ->
         get 0 out idx
         = exp (get 0 logits idx)
           / sum_upto (nth k (shape logits) 0%nat) (fun j => exp (along logits k idx j)).
Proof.
  intros Hwf Hax. unfold stable_softmax.
  rewrite softmax_shift by exact Hwf.
  unfold tf_nn_softmax. rewrite Hax. simpl bind.
  eexists. split; [reflexivity|]. split; [reflexivity|].
  intros idx Hv. now rewrite get_tabulate.
Qed.

(** X8. The elements of the result of [stable_softmax] are probabilities:
    each lies between 0 and 1. *)
Theorem stable_softmax_probabilities (logits out : Tensor R) (axis : option Z) :
  wf logits ->
  stable_softmax logits axis = Ok out ->
  forall idx, valid (shape logits) idx -> 0 <= get 0 out idx <= 1.
Proof.
  intros Hwf Hout idx Hv.
  destruct (tf_axis (rank logits) (match axis with Some a => a | None => (-1)%Z end))
    as [k|e] eqn:Hax.
  - destruct (@stable_softmax_value logits axis k Hwf Hax) as (out' & Hout' & _ & Hval).
    assert (out' = out) by congruence. subst out'.
    rewrite (Hval idx Hv).
    destruct (@tf_axis_index _ _ _ Hax) as [_ Hk].
    pose proof (@valid_nth _ _ k Hv Hk) as Hn.
    set (n := nth k (shape logits) 0%nat) in *.
    assert (HT : 0 < sum_upto n (fun j => exp (along logits k idx j)))
      by (apply sum_upto_exp_pos; lia).
    assert (Hle : exp (get 0 logits idx) <= sum_upto n (fun j => exp (along logits k idx j))).
    { pose proof (@sum_upto_term_le n (fun j => exp (along logits k idx j)) (nth k idx 0%nat)
                    (fun j => Rlt_le _ _ (exp_pos _)) Hn) as H.
      simpl in H. unfold along at 1 in H. now rewrite update_nth_same in H. }
    pose proof (exp_pos (get 0 logits idx)) as He.
    split.
    + left. apply Rdiv_lt_0_compat; assumption.
    + apply (Rmult_le_reg_r (sum_upto n (fun j => exp (along logits k idx j)))); [exact HT|].
      unfold Rdiv. rewrite Rmult_assoc, Rinv_l by lra. lra.
  - exfalso. unfold stable_softmax, tf_nn_softmax in Hout.
    change (rank (tmap (fun x => x + 1 / 10 ^ 9) logits)) with (rank logits) in Hout.
    rewrite Hax in Hout. discriminate.
Qed.

Close Scope R_scope.

Lemma stable_softmax_probabilities_witness :
  let logits := mkTensor [2; 2] [0; 1; 2; 3]%R in
  wf logits
  /\ exists out,
       stable_softmax logits None = Ok out
       /\ (0 <= get 0 out [0%nat; 1%nat] <= 1)%R.
Proof.
  intros logits.
  assert (Hwf : wf logits) by reflexivity.
  split; [exact Hwf|].
  destruct (@stable_softmax_value logits None 1 Hwf eq_refl) as (out & Hout & _ & _).
  exists out. split; [exact Hout|].
  apply (@stable_softmax_probabilities logits out None Hwf Hout [0; 1]).
  simpl. lia.
Defined.

Open Scope R_scope.

(** X9. The identity the docstring relies on, [softmax(x) = softmax(x + c)]:
    adding the same constant to every logit does not change the result of
    [stable_softmax]. *)
Theorem stable_softmax_shift_invariant (logits : Tensor R) (c : R) (axis : option Z) :
  wf logits ->
  stable_softmax (tmap (fun v => v + c) logits) axis = stable_softmax logits axis.
Proof.
  intros Hwf. unfold stable_softmax.
  rewrite softmax_shift by (now apply wf_tmap).
  rewrite softmax_shift by exact Hwf.
  now rewrite softmax_shift by exact Hwf.
Qed.

(** X10. Uniform logits, the degenerate input the workaround is about: where
    all the logits along the axis are equal, each of them gets the
    probability [1 / n], [n] being the size of the axis. *)
Theorem stable_softmax_uniform
    (logits out : Tensor R) (axis : option Z) (k : nat) (idx : list nat) :
  wf logits ->
  tf_axis (rank logits) (match axis with Some a => a | None => (-1)%Z end) = Ok k ->
  stable_softmax logits axis = Ok out ->
  valid (shape logits) idx ->
  (forall j, (j < nth k (shape logits) 0)%nat -> along logits k idx j = get 0 logits idx) ->
  get 0 out idx = 1 / INR (nth k (shape logits) 0%nat).
Proof.
  intros Hwf Hax Hout Hv Hu.
  destruct (@stable_softmax_value logits axis k Hwf Hax) as (out' & Hout' & _ & Hval).
  assert (out' = out) by congruence. subst out'.
  rewrite (Hval idx Hv).
  destruct (@tf_axis_index _ _ _ Hax) as [_ Hk].
  pose proof (@valid_nth _ _ k Hv Hk) as Hn.
  set (n := nth k (shape logits) 0%nat) in *.
  rewrite (@sum_upto_ext n _ (fun _ => exp (get 0 logits idx)))
    by (intros j Hj; now rewrite Hu).
  rewrite sum_upto_const.
  assert (HnR : 0 < INR n) by (apply lt_0_INR; lia).
  pose proof (exp_pos (get 0 logits idx)) as He.
  field. split; lra.
Qed.

Close Scope R_scope.

Lemma stable_softmax_shift_invariant_witness :
  let logits := mkTensor [2; 2] [0; 1; 2; 3]%R in
  wf logits
  /\ stable_softmax (tmap (fun v => v + 100)%R logits) (Some 0%Z)
     = stable_softmax logits (Some 0%Z).
Proof.
  intros logits.
  assert (Hwf : wf logits) by reflexivity.
  split; [exact Hwf|].
  exact (@stable_softmax_shift_invariant logits 100%R (Some 0%Z) Hwf).
Defined.

Lemma uniform_row :
  forall j, j < 2 ->
    along (mkTensor [2; 2] [3; 3; 0; 1]%R) 1 [0; 0] j
    = get 0%R (mkTensor [2; 2] [3; 3; 0; 1]%R) [0; 0].
Proof.
  intros [|[|j]] Hj; try lia; reflexivity.
Qed.

Lemma stable_softmax_uniform_witness :
  let logits := mkTensor [2; 2] [3; 3; 0; 1]%R in
  wf logits
  /\ exists out,
       stable_softmax logits None = Ok out
       /\ get 0%R out [0; 0] = (1 / INR 2)%R.
Proof.
  intros logits.
  assert (Hwf : wf logits) by reflexivity.
  split; [exact Hwf|].
  destruct (@stable_softmax_value logits None 1 Hwf eq_refl) as (out & Hout & _ & _).
  exists out. split; [exact Hout|].
  refine (@stable_softmax_uniform logits out None 1 [0; 0] Hwf eq_refl Hout _ uniform_row).
  simpl. lia.
Defined.

(* ----------------------------------------------------------------- *)
(** ** [functional_layernorm]: the normalization it computes *)

Open Scope R_scope.


Close Scope R_scope.



Open Scope R_scope.







Close Scope R_scope.



(* ----------------------------------------------------------------- *)
(** ** [functional_layernorm]: arguments TensorFlow rejects *)

Lemma tf_axis_out_of_range (r : nat) (axis : Z) :
  (axis < - Z.of_nat r \/ Z.of_nat r <= axis)%Z ->
  tf_axis r axis = Raise InvalidArgumentError.
Proof.
  intros H. unfold tf_axis.
  destruct ((0 <=? axis) && (axis <? Z.of_nat r))%Z eqn:E1.
  - apply andb_true_iff in E1. destruct E1 as [E1 E2].
    apply Z.leb_le in E1. apply Z.ltb_lt in E2. lia.
  - destruct ((- Z.of_nat r <=? axis) && (axis <? 0))%Z eqn:E2; [|reflexivity].
    apply andb_true_iff in E2. destruct E2 as [E2 E3].
    apply Z.leb_le in E2. apply Z.ltb_lt in E3. lia.
Qed.

Lemma layernorm_affine_mismatch (inputs weight bias : Tensor R) (axis : Z) (k : nat) :
  tf_axis (rank inputs) axis = Ok k ->
  axis <> (-1)%Z ->
  length (data weight) <> nth k (shape inputs) 0
  \/ length (data bias) <> nth k (shape inputs) 0 ->
  layernorm_affine inputs weight bias axis = Raise InvalidArgumentError.
Proof.
  intros Hax Hne Hmis.
  destruct (@tf_axis_index _ _ _ Hax) as [Hidx Hk].
  unfold layernorm_affine.
  destruct (Z.eqb_spec axis (-1)) as [E|_]; [contradiction|]. simpl negb. cbv iota.
  rewrite shape_list_as_tf.
  unfold Py.getitem, Py.setitem. rewrite length_map, repeat_length.
  fold (rank inputs). rewrite Hidx. cbn [bind].
  rewrite nth_error_map.
  rewrite (nth_error_nth' (shape inputs) 0) by exact Hk. cbn [option_map bind].
  rewrite map_update, map_repeat. cbn [eval_entry].
  unfold tf_reshape.
  rewrite nelems_update_ones by exact Hk.
  destruct (Nat.eqb_spec (nth k (shape inputs) 0) (length (data weight))) as [Ew|Ew];
    [|reflexivity].
  cbn [bind].
  destruct (Nat.eqb_spec (nth k (shape inputs) 0) (length (data bias))) as [Eb|Eb];
    [|reflexivity].
  destruct Hmis as [H|H]; congruence.
Qed.

(** X13. With [weight] and [bias] of rank 1 and an integer [axis],
    [functional_layernorm] fails with TensorFlow's invalid-argument error when
    [axis] is outside [-rank .. rank - 1], and also when [axis] is in range and
    not written -1 but [weight] or [bias] does not have exactly the size of
    that axis (the reshape rejects it, even a parameter of size 1). *)
Theorem functional_layernorm_invalid_argument
    (x weight bias : Tensor R) (epsilon : R) (axis : Z) :
  rank weight = 1 -> rank bias = 1 ->
  ((axis < - Z.of_nat (rank x) \/ Z.of_nat (rank x) <= axis)%Z ->
   functional_layernorm x weight bias epsilon (AxisInt axis) = Raise InvalidArgumentError)
  /\ (forall k,
        tf_axis (rank x) axis = Ok k ->
        axis <> (-1)%Z ->
        length (data weight) <> nth k (shape x) 0
        \/ length (data bias) <> nth k (shape x) 0 ->
        functional_layernorm x weight bias epsilon (AxisInt axis) = Raise InvalidArgumentError).
Proof.
  intros Hw Hb. unfold functional_layernorm. rewrite Hw, Hb. simpl.
  split.
  - intros Hout. unfold tf_nn_moments.
    now rewrite tf_axis_out_of_range.
  - intros k Hax Hne Hmis.
    destruct (@moments_value x axis k Hax) as (mean & variance & Hmom & _).
    rewrite Hmom. cbn [bind].
    now rewrite (@layernorm_affine_mismatch x weight bias axis k).
Qed.

Lemma functional_layernorm_invalid_argument_witness :
  let x := mkTensor [2; 3] [1; 2; 3; 4; 5; 6]%R in
  let weight := mkTensor [1] [2]%R in
  let bias := mkTensor [1] [0]%R in
  functional_layernorm x weight bias default_epsilon (AxisInt 2) = Raise InvalidArgumentError
  /\ functional_layernorm x weight bias default_epsilon (AxisInt 1) = Raise InvalidArgumentError.
Proof.
  intros x weight bias.
  destruct (@functional_layernorm_invalid_argument x weight bias default_epsilon 2%Z
              eq_refl eq_refl) as [Hrange _].
  destruct (@functional_layernorm_invalid_argument x weight bias default_epsilon 1%Z
              eq_refl eq_refl) as [_ Hsize].
  split.
  - apply Hrange. right. unfold rank. simpl. lia.
  - apply (Hsize 1); [reflexivity | discriminate | left; simpl; lia].
Defined.

(* ----------------------------------------------------------------- *)
(** ** [functional_layernorm]: parameters of size 1 and [axis = -1] *)

Open Scope R_scope.

Lemma pad_one (r : nat) : (1 <= r)%nat -> pad_shape r [1%nat] = repeat 1%nat r.
Proof.
  intros Hr. unfold pad_shape. simpl length.
  destruct r as [|r]; [lia|].
  replace (S r - 1)%nat with r by lia.
  now rewrite <- repeat_cons.
Qed.

Lemma broadcast_shape_one_r (s : list nat) :
  (1 <= length s)%nat -> broadcast_shape s [1%nat] = Some s.
Proof.
  intros Hr. unfold broadcast_shape. simpl length.
  rewrite Nat.max_l by lia. rewrite pad_one by lia.
  unfold pad_shape. rewrite Nat.sub_diag. apply zip_dims_ones_r.
Qed.

Lemma broadcast_shape_one_l (s : list nat) :
  (1 <= length s)%nat -> broadcast_shape [1%nat] s = Some s.
Proof.
  intros Hr. unfold broadcast_shape. simpl length.
  rewrite Nat.max_r by lia. rewrite pad_one by lia.
  unfold pad_shape. rewrite Nat.sub_diag. apply zip_dims_ones_l.
Qed.

Lemma bget_one (t : Tensor R) (idx : list nat) :
  shape t = [1%nat] -> (1 <= length idx)%nat -> bget t idx = nth 0 (data t) 0.
Proof.
  intros Hs Hlen. unfold bget, bidx, get. rewrite Hs. simpl length.
  now rewrite skipn_last by exact Hlen.
Qed.

Lemma batch_normalization_one_parameter
    (x mean variance offset scale : Tensor R) (eps : R) (k : nat)
    (m v : list nat -> R) :
  (1 <= length (shape x))%nat ->
  shape mean = Py.update (shape x) k 1%nat ->
  shape variance = Py.update (shape x) k 1%nat ->
  wf variance ->
  shape scale = [1%nat] -> shape offset = [1%nat] ->
  (forall idx, valid (shape x) idx -> bget mean idx = m idx) ->
  (forall idx, valid (shape x) idx -> bget variance idx = v idx) ->
  tf_nn_batch_normalization x mean variance offset scale eps
  = Ok (tabulate (shape x)
          (fun idx => get 0 x idx * (/ sqrt (v idx + eps) * nth 0 (data scale) 0)
                      + (nth 0 (data offset) 0
                         - m idx * (/ sqrt (v idx + eps) * nth 0 (data scale) 0)))).
Proof.
  intros Hr Hsm Hsv Hwf Hss Hso Hm Hv.
  set (sm := Py.update (shape x) k 1%nat) in *.
  assert (Hlm : (1 <= length sm)%nat) by (unfold sm; now rewrite length_update).
  unfold tf_nn_batch_normalization, broadcast_op.
  change (shape (tmap (fun v0 => / sqrt (v0 + eps)) variance)) with (shape variance).
  rewrite Hsv, Hss, broadcast_shape_one_r by exact Hlm. cbn [bind shape tabulate].
  fold (tabulate sm (fun idx => bget (tmap (fun v0 => / sqrt (v0 + eps)) variance) idx
                               * bget scale idx)).
  set (inv := tabulate sm _).
  unfold sm at 1.
  rewrite broadcast_shape_same_length, zip_dims_update_r by (now rewrite length_update).
  cbn [bind shape tabulate].
  fold (tabulate (shape x) (fun idx => bget x idx * bget inv idx)).
  set (x_inv := tabulate (shape x) _).
  rewrite Hsm, broadcast_shape_same_length, zip_dims_same by reflexivity.
  cbn [bind shape tabulate].
  fold (tabulate sm (fun idx => bget mean idx * bget inv idx)).
  set (mean_inv := tabulate sm _).
  rewrite Hso, broadcast_shape_one_l by exact Hlm. cbn [bind shape tabulate].
  fold (tabulate sm (fun idx => bget offset idx - bget mean_inv idx)).
  set (shift := tabulate sm _).
  unfold sm at 1.
  rewrite broadcast_shape_same_length, zip_dims_update_r by (now rewrite length_update).
  f_equal. apply tabulate_ext. intros idx Hvalid.
  assert (Hv0 : valid sm (Py.update idx k 0%nat)) by (now apply valid_keepdims).
  assert (Hl0 : (1 <= length (Py.update idx k 0%nat))%nat)
    by (rewrite (valid_length _ _ Hv0); exact Hlm).
  assert (Hinv : get 0 inv (Py.update idx k 0%nat)
                 = / sqrt (v idx + eps) * nth 0 (data scale) 0).
  { unfold inv. rewrite get_tabulate by exact Hv0.
    rewrite (@bget_one scale) by assumption.
    rewrite bget_same by (simpl shape; now rewrite Hsv).
    rewrite (@get_tmap _ _ _ 0) by (assumption || now rewrite Hsv).
    rewrite <- (@bget_keepdims variance (shape x) idx k) by assumption.
    now rewrite Hv. }
  unfold x_inv. rewrite bget_tabulate by exact Hvalid.
  rewrite (@bget_keepdims shift (shape x) idx k) by (reflexivity || exact Hvalid).
  unfold shift. rewrite get_tabulate by exact Hv0.
  rewrite (@bget_one offset) by assumption.
  unfold mean_inv. rewrite bget_tabulate by exact Hv0.
  rewrite (@bget_keepdims inv (shape x) idx k) by (reflexivity || exact Hvalid).
  rewrite (@bget_same inv) by exact Hv0.
  rewrite Hinv.
  rewrite bget_same by exact Hvalid.
  rewrite (@bget_same mean) by (now rewrite Hsm).
  rewrite <- (@bget_keepdims mean (shape x) idx k) by assumption.
  now rewrite Hm.
Qed.

(** X14. Written [axis = -1], the last axis takes no reshape, so parameters
    of size 1 are accepted whatever the size of that axis: they broadcast, and
    every element where [variance + epsilon] is positive is normalized with
    the one [weight] and the one [bias].  (Written [rank - 1], the same call
    is rejected: see X13.) *)
Theorem functional_layernorm_one_parameter
    (x weight bias : Tensor R) (epsilon : R) :
  (1 <= rank x)%nat ->
  shape weight = [1%nat] -> shape bias = [1%nat] ->
  exists out,
    functional_layernorm x weight bias epsilon (AxisInt (-1)) = Ok out
    /\ shape out = shape x
    /\ forall idx, valid (shape x) idx ->
         0 < var_along x (rank x - 1) idx + epsilon ->
         get 0 out idx
         = (get 0 x idx - mean_along x (rank x - 1) idx)
           / sqrt (var_along x (rank x - 1) idx + epsilon)
           * nth 0 (data weight) 0
           + nth 0 (data bias) 0.
Proof.
  intros Hr Hsw Hsb.
  assert (Hax : tf_axis (rank x) (-1) = Ok (rank x - 1)%nat).
  { rewrite tf_axis_last.
    replace (Z.of_nat (rank x) - 1)%Z with (Z.of_nat (rank x - 1)) by lia.
    apply tf_axis_nonneg. lia. }
  unfold functional_layernorm. unfold rank at 1 2. rewrite Hsw, Hsb. simpl.
  destruct (@moments_value x (-1)%Z _ Hax)
    as (mean & variance & Hmom & Hsm & Hsv & Hwfv & Hmean & Hvar).
  rewrite Hmom. cbn [bind].
  rewrite (@batch_normalization_one_parameter x mean variance bias weight epsilon
             (rank x - 1) (mean_along x (rank x - 1)) (var_along x (rank x - 1)));
    try assumption.
  eexists. split; [reflexivity|]. split; [reflexivity|].
  intros idx Hv _. rewrite get_tabulate by exact Hv.
  unfold Rdiv. ring.
Qed.

Close Scope R_scope.

Lemma row_variance_positive :
  let x := mkTensor [2; 3] [1; 2; 3; 4; 5; 6]%R in
  (0 < var_along x (rank x - 1) [0%nat; 0%nat] + default_epsilon)%R.
Proof.
  unfold var_along, mean_along, along, sum_upto, get, default_epsilon, rank. simpl.
  lra.
Qed.

Lemma functional_layernorm_one_parameter_witness :
  let x := mkTensor [2; 3] [1; 2; 3; 4; 5; 6]%R in
  let weight := mkTensor [1] [2]%R in
  let bias := mkTensor [1] [0]%R in
  exists out,
    functional_layernorm x weight bias default_epsilon (AxisInt (-1)) = Ok out
    /\ shape out = [2; 3]
    /\ get 0%R out [0; 0]
       = ((get 0 x [0%nat; 0%nat] - mean_along x (rank x - 1) [0%nat; 0%nat])
          / sqrt (var_along x (rank x - 1) [0%nat; 0%nat] + default_epsilon)
          * nth 0 (data weight) 0
          + nth 0 (data bias) 0)%R.
Proof.
  intros x weight bias.
  destruct (@functional_layernorm_one_parameter x weight bias default_epsilon)
    as (out & Hout & Hshape & Hval); try reflexivity.
  - unfold rank. simpl. lia.
  - exists out. split; [exact Hout|]. split; [exact Hshape|].
    apply (Hval [0; 0]); [simpl; lia | exact row_variance_positive].
Defined.

(* ----------------------------------------------------------------- *)
(** ** [stable_softmax]: order along the axis *)

Open Scope R_scope.

(** X15. [stable_softmax] keeps the order of the logits along the axis: an
    element whose logit is at most that of another element of the same slice
    gets at most its probability (so the largest logit keeps the largest
    probability). *)
Theorem stable_softmax_monotone
    (logits out : Tensor R) (axis : option Z) (k : nat) (idx : list nat) (j : nat) :
  wf logits ->
  tf_axis (rank logits) (match axis with Some a => a | None => (-1)%Z end) = Ok k ->
  stable_softmax logits axis = Ok out ->
  valid (shape logits) idx ->
  (j < nth k (shape logits) 0)%nat ->
  get 0 logits idx <= along logits k idx j ->
  get 0 out idx <= along out k idx j.
Proof.
  intros Hwf Hax Hout Hv Hj Hle.
  destruct (@stable_softmax_value logits axis k Hwf Hax) as (out' & Hout' & _ & Hval).
  assert (out' = out) by congruence. subst out'.
  assert (Hvj : valid (shape logits) (Py.update idx k j)) by (now apply valid_update).
  unfold along at 1. rewrite (Hval idx Hv), (Hval _ Hvj).
  set (n := nth k (shape logits) 0%nat) in *.
  rewrite (@sum_upto_ext n (fun j' => exp (along logits k (Py.update idx k j) j'))
             (fun j' => exp (along logits k idx j')))
    by (intros j' _; unfold along; now rewrite update_update).
  assert (HT : 0 < sum_upto n (fun j' => exp (along logits k idx j')))
    by (apply sum_upto_exp_pos; lia).
  apply Rmult_le_compat_r; [left; now apply Rinv_0_lt_compat|].
  fold (along logits k idx j).
  destruct Hle as [Hlt|Heq].
  - left. now apply exp_increasing.
  - rewrite Heq. right. reflexivity.
Qed.

Close Scope R_scope.

Lemma second_logit_larger :
  let logits := mkTensor [2; 2] [0; 1; 2; 3]%R in
  (get 0 logits [0; 0]%nat <= along logits 1 [0; 0]%nat 1)%R.
Proof. unfold along, get. simpl. lra. Qed.

Lemma stable_softmax_monotone_witness :
  let logits := mkTensor [2; 2] [0; 1; 2; 3]%R in
  wf logits
  /\ exists out,
       stable_softmax logits None = Ok out
       /\ (get 0 out [0; 0]%nat <= along out 1 [0; 0]%nat 1)%R.
Proof.
  intros logits.
  assert (Hwf : wf logits) by reflexivity.
  split; [exact Hwf|].
  destruct (@stable_softmax_value logits None 1 Hwf eq_refl) as (out & Hout & _ & _).
  exists out. split; [exact Hout|].
  refine (@stable_softmax_monotone logits out None 1 [0; 0] 1 Hwf eq_refl Hout _ _
            second_logit_larger); simpl; lia.
Defined.
